(** * A shallow embedding of the ATM simulator (atm.py)

    The Python program keeps every account in one dictionary [data], mutated in
    place by the menu functions and written to [accounts.json] after each
    successful change.  Amounts are Python floats, that is IEEE 754 binary64
    numbers: they are modelled by Rocq's primitive [float], whose operations
    are the binary64 ones (round to nearest, ties to even), so the rounding,
    the infinities and NaN of the program are those of the model.

    Console input is a parameter of each function: a text argument is the
    string that [input(...).strip()] or [getpass(...).strip()] returned (a
    Python [str], held as its UTF-8 encoding), an
    amount is [Some x] when [float(...)] returned the float [x] and [None]
    when it raised [ValueError], and a timestamp is the string built from
    [datetime.utcnow()].  What a function prints is the [message] it returns;
    a balance or an amount in a message is the float that the program formats
    with two decimals.

    The menus [account_menu] and [main] only dispatch to the functions below;
    a session is modelled as a list of calls.  The two stray lines after the
    entry point of atm.py belong to no function and are not modelled. *)

From Stdlib Require Import ZArith Floats Lia Zpower.
From stdpp Require Import base option list strings pretty gmap fin_maps.

Open Scope Z_scope.

(** ** Data model *)

(** The ["amount"] of a history entry is the int [0] for the creation entry
    and a float for every other entry. *)
Inductive number :=
  | PyInt (n : Z)
  | PyFloat (x : float).

Record entry := Entry {
  time : string;
  type : string;
  amount : number;
  note : string
}.

Record account := Account {
  name : string;
  pin : string;
  balance : float;
  history : list entry
}.

(** The dictionary [data]: [{"next_acc": ..., "accounts": {...}}]. *)
Record store := Store {
  next_acc : Z;
  accounts : gmap string account
}.

(** The dictionary in memory and the content of [accounts.json]
    ([None]: the file does not exist). *)
Record world := World {
  data : store;
  file : option store
}.

(** ** Statements: state passing with exceptions

    A Python statement changes [data] in place and either completes or raises;
    an exception keeps whatever was changed before it. *)

Inductive exn :=
  | KeyError (key : string)
  | EOFError.

Inductive result (A : Type) :=
  | Return (a : A)
  | Raise (e : exn).
Arguments Return {A} a.
Arguments Raise {A} e.

Definition M (A : Type) : Type := world -> result A * world.

Definition ret {A} (a : A) : M A := fun w => (Return a, w).

Definition raise {A} (e : exn) : M A := fun w => (Raise e, w).

Definition bind {A B} (m : M A) (k : A -> M B) : M B :=
  fun w =>
    match m w with
    | (Return a, w') => k a w'
    | (Raise e, w') => (Raise e, w')
    end.

Notation "x <- m ;; k" := (bind m (fun x => k))
  (at level 100, m at next level, right associativity).
Notation "m ;;; k" := (bind m (fun _ => k))
  (at level 100, right associativity).

(** [data["accounts"][acc]] *)
Definition get_account (acc : string) : M account :=
  fun w =>
    match accounts (data w) !! acc with
    | Some a => (Return a, w)
    | None => (Raise (KeyError acc), w)
    end.

(** Assignment to a key of [data["accounts"]], or to a field of the account
    dictionary stored there. *)
Definition set_account (acc : string) (a : account) : M unit :=
  fun w =>
    (Return tt,
     World (Store (next_acc (data w)) (<[acc := a]> (accounts (data w)))) (file w)).

(** [data["accounts"].get(acc)] *)
Definition find_account (acc : string) : M (option account) :=
  fun w => (Return (accounts (data w) !! acc), w).

(** [acc in data["accounts"]] *)
Definition has_account (acc : string) : M bool :=
  fun w => (Return (bool_decide (is_Some (accounts (data w) !! acc))), w).

Definition get_next_acc : M Z := fun w => (Return (next_acc (data w)), w).

Definition set_next_acc (n : Z) : M unit :=
  fun w => (Return tt, World (Store n (accounts (data w))) (file w)).

Definition load_data (f : option store) : store :=
  match f with
  | None => Store 1001 ∅
  | Some d => d
  end.

Definition save_data : M unit :=
  fun w => (Return tt, World (data w) (Some (data w))).

(** [data = load_data()], as [main] does after each login. *)
Definition reload : M unit :=
  fun w => (Return tt, World (load_data (file w)) (file w)).

(** ** What the functions print *)

Inductive message :=
  | NameEmpty                         (* Name cannot be empty. *)
  | AccountCreated (acc_num : string) (* Account created. Your account number is: ... *)
  | AccountNotFound                   (* Account not found. *)
  | InvalidPin                        (* Invalid PIN. *)
  | LoggedIn (acc : string)           (* authenticate returns acc *)
  | CurrentBalance (bal : float)      (* Current balance: ... *)
  | InvalidAmount                     (* Invalid amount. *)
  | AmountNotPositive                 (* Amount must be positive. *)
  | InsufficientFunds                 (* Insufficient funds. *)
  | Deposited (amt : float)           (* Deposited ... *)
  | Withdrew (amt : float)            (* Withdrew ... *)
  | SameAccount                       (* Cannot transfer to the same account. *)
  | RecipientNotFound                 (* Recipient account not found. *)
  | Transferred (amt : float) (to_acc : string) (* Transferred ... to account ... *)
  | HistoryLines (rows : list entry). (* one line per entry, in the order printed *)

(** ** The functions of atm.py *)

(** A Python [str] is a sequence of code points; the strings of the model are
    their UTF-8 encodings, and [code_points] reads the code points back:
    [pending] continuation bytes are still to come for the code point whose
    leading bits are [acc]. *)
Fixpoint utf8 (pending : nat) (acc : Z) (s : string) : list Z :=
  match s with
  | EmptyString => []
  | String b rest =>
      let n := Z.of_N (Ascii.N_of_ascii b) in
      match pending with
      | O =>
          if n <? 128 then n :: utf8 0 0 rest
          else if n <? 224 then utf8 1 (Z.land n 31) rest
          else if n <? 240 then utf8 2 (Z.land n 15) rest
          else utf8 3 (Z.land n 7) rest
      | S O => (64 * acc + Z.land n 63) :: utf8 0 0 rest
      | S k => utf8 k (64 * acc + Z.land n 63) rest
      end
  end.

Definition code_points (s : string) : list Z := utf8 0 0 s.

(** [len(s)]: the number of code points. *)
Definition len (s : string) : nat := length (code_points s).

(** The code points for which [str.isdigit] holds, those with a digit value
    in the Unicode character database (Numeric_Type Decimal or Digit), as
    ranges; the database is the one of CPython 3.11, Unicode 14.0. *)
Definition digit_ranges : list (Z * Z) :=
  [(48, 57); (178, 179); (185, 185); (1632, 1641); (1776, 1785);
   (1984, 1993); (2406, 2415); (2534, 2543); (2662, 2671); (2790, 2799);
   (2918, 2927); (3046, 3055); (3174, 3183); (3302, 3311); (3430, 3439);
   (3558, 3567); (3664, 3673); (3792, 3801); (3872, 3881); (4160, 4169);
   (4240, 4249); (4969, 4977); (6112, 6121); (6160, 6169); (6470, 6479);
   (6608, 6618); (6784, 6793); (6800, 6809); (6992, 7001); (7088, 7097);
   (7232, 7241); (7248, 7257); (8304, 8304); (8308, 8313); (8320, 8329);
   (9312, 9320); (9332, 9340); (9352, 9360); (9450, 9450); (9461, 9469);
   (9471, 9471); (10102, 10110); (10112, 10120); (10122, 10130);
   (42528, 42537); (43216, 43225); (43264, 43273); (43472, 43481);
   (43504, 43513); (43600, 43609); (44016, 44025); (65296, 65305);
   (66720, 66729); (68160, 68163); (68912, 68921); (69216, 69224);
   (69714, 69722); (69734, 69743); (69872, 69881); (69942, 69951);
   (70096, 70105); (70384, 70393); (70736, 70745); (70864, 70873);
   (71248, 71257); (71360, 71369); (71472, 71481); (71904, 71913);
   (72016, 72025); (72784, 72793); (73040, 73049); (73120, 73129);
   (92768, 92777); (92864, 92873); (93008, 93017); (120782, 120831);
   (123200, 123209); (123632, 123641); (125264, 125273); (127232, 127242);
   (130032, 130041)].

Definition digit_char (c : Z) : bool :=
  existsb (fun r : Z * Z => (r.1 <=? c) && (c <=? r.2)) digit_ranges.

(** [s.isdigit()]: at least one character, and every character a digit. *)
Definition isdigit (s : string) : bool :=
  match code_points s with
  | [] => false
  | cs => forallb digit_char cs
  end.

(** The [while True] loop of [create_account]: [answers] are the successive
    answers to [getpass]; the loop ends with the first well-formed PIN that is
    confirmed, and [input] raises [EOFError] when the answers run out. *)
Fixpoint choose_pin (answers : list string) : option string :=
  match answers with
  | [] => None
  | pin :: rest =>
      if (Z.of_nat (len pin) =? 4) && isdigit pin then
        match rest with
        | [] => None
        | pin_confirm :: rest' =>
            if String.eqb pin pin_confirm then Some pin else choose_pin rest'
        end
      else choose_pin rest
  end.

Definition create_account (name : string) (answers : list string) (now : string)
  : M message :=
  if String.eqb name "" then ret NameEmpty
  else
    match choose_pin answers with
    | None => raise EOFError
    | Some pin =>
        n <- get_next_acc ;;
        let acc_num : string := pretty n in
        set_next_acc (n + 1) ;;;
        set_account acc_num
          (Account name pin 0%float [Entry now "create" (PyInt 0) "Account created"]) ;;;
        save_data ;;;
        ret (AccountCreated acc_num)
    end.

Definition authenticate (acc pin_typed : string) : M message :=
  found <- find_account acc ;;
  match found with
  | None => ret AccountNotFound
  | Some acc_data =>
      if negb (String.eqb (pin acc_data) pin_typed) then ret InvalidPin
      else ret (LoggedIn acc)
  end.

Definition show_balance (acc : string) : M message :=
  a <- get_account acc ;;
  ret (CurrentBalance (balance a)).

Definition add_history (acc typ : string) (amount : number) (note now : string)
  : M unit :=
  a <- get_account acc ;;
  set_account acc
    (Account (name a) (pin a) (balance a) (history a ++ [Entry now typ amount note])).

Definition add_balance (acc : string) (amt : float) : M unit :=
  a <- get_account acc ;;
  set_account acc (Account (name a) (pin a) (balance a + amt)%float (history a)).

Definition sub_balance (acc : string) (amt : float) : M unit :=
  a <- get_account acc ;;
  set_account acc (Account (name a) (pin a) (balance a - amt)%float (history a)).

Definition deposit (acc : string) (typed : option float) (now : string) : M message :=
  match typed with
  | None => ret InvalidAmount
  | Some amt =>
      if (amt <=? 0)%float then ret AmountNotPositive
      else
        add_balance acc amt ;;;
        add_history acc "deposit" (PyFloat amt) "Cash deposit" now ;;;
        save_data ;;;
        ret (Deposited amt)
  end.

Definition withdraw (acc : string) (typed : option float) (now : string) : M message :=
  match typed with
  | None => ret InvalidAmount
  | Some amt =>
      if (amt <=? 0)%float then ret AmountNotPositive
      else
        a <- get_account acc ;;
        if (balance a <? amt)%float then ret InsufficientFunds
        else
          sub_balance acc amt ;;;
          add_history acc "withdraw" (PyFloat amt) "Cash withdrawal" now ;;;
          save_data ;;;
          ret (Withdrew amt)
  end.

Definition transfer (acc to_acc : string) (typed : option float)
    (now_out now_in : string) : M message :=
  if String.eqb to_acc acc then ret SameAccount
  else
    known <- has_account to_acc ;;
    if negb known then ret RecipientNotFound
    else
      match typed with
      | None => ret InvalidAmount
      | Some amt =>
          if (amt <=? 0)%float then ret AmountNotPositive
          else
            a <- get_account acc ;;
            if (balance a <? amt)%float then ret InsufficientFunds
            else
              sub_balance acc amt ;;;
              add_balance to_acc amt ;;;
              add_history acc "transfer_out" (PyFloat amt) ("To " +:+ to_acc) now_out ;;;
              add_history to_acc "transfer_in" (PyFloat amt) ("From " +:+ acc) now_in ;;;
              save_data ;;;
              ret (Transferred amt to_acc)
      end.

Definition view_history (acc : string) : M message :=
  a <- get_account acc ;;
  ret (HistoryLines (rev (history a))).

(** ** Sessions: sequences of calls *)

Inductive op :=
  | CreateAccount (name : string) (answers : list string) (now : string)
  | Authenticate (acc pin_typed : string)
  | ShowBalance (acc : string)
  | Deposit (acc : string) (typed : option float) (now : string)
  | Withdraw (acc : string) (typed : option float) (now : string)
  | Transfer (acc to_acc : string) (typed : option float) (now_out now_in : string)
  | ViewHistory (acc : string).

Definition call (o : op) : M message :=
  match o with
  | CreateAccount name answers now => create_account name answers now
  | Authenticate acc pin_typed => authenticate acc pin_typed
  | ShowBalance acc => show_balance acc
  | Deposit acc typed now => deposit acc typed now
  | Withdraw acc typed now => withdraw acc typed now
  | Transfer acc to_acc typed now_out now_in => transfer acc to_acc typed now_out now_in
  | ViewHistory acc => view_history acc
  end.

(** The world after a call (an exception keeps what was changed before it). *)
Definition after (o : op) (w : world) : world := (call o w).2.

Definition exec (ops : list op) (w : world) : world :=
  fold_left (fun w o => after o w) ops w.

(** The program starts from what [load_data] reads. *)
Definition boot (f : option store) : world := World (load_data f) f.

Definition fresh : world := boot None.

Inductive reachable : world -> Prop :=
  | reachable_fresh : reachable fresh
  | reachable_call o w : reachable w -> reachable (after o w).

(** ** Notions used by the properties *)

(** The error kinds of the operation interface, and the messages that report
    them.  Both "Invalid amount." (the text is no float) and "Amount must be
    positive." reject the amount. *)
Inductive error :=
  | E_Validation
  | E_AuthNotFound
  | E_AuthBadCredential
  | E_InvalidAmount
  | E_InsufficientFunds
  | E_SameAccount
  | E_NotFound.

Definition error_of (r : result message) : option error :=
  match r with
  | Return NameEmpty => Some E_Validation
  | Return AccountNotFound => Some E_AuthNotFound
  | Return InvalidPin => Some E_AuthBadCredential
  | Return InvalidAmount | Return AmountNotPositive => Some E_InvalidAmount
  | Return InsufficientFunds => Some E_InsufficientFunds
  | Return SameAccount => Some E_SameAccount
  | Return RecipientNotFound => Some E_NotFound
  | _ => None
  end.

(** The calls that report a completed change of the accounts. *)
Definition succeeded (r : result message) : bool :=
  match r with
  | Return (AccountCreated _) | Return (Deposited _) | Return (Withdrew _)
  | Return (Transferred _ _) => true
  | _ => false
  end.

(** The account [a] after a new balance was assigned and one entry appended. *)
Definition posted (a : account) (bal : float) (e : entry) : account :=
  Account (name a) (pin a) bal (history a ++ [e]).

(** The world after [save_data] with counter [n] and accounts [m]. *)
Definition saved (n : Z) (m : gmap string account) : world :=
  World (Store n m) (Some (Store n m)).

Definition opened (name pin now : string) : account :=
  Account name pin 0%float [Entry now "create" (PyInt 0) "Account created"].

(** One completed change, from the world before to the world after. *)
Inductive mutation (w : world) : world -> Prop :=
  | mutation_create name pin now :
      mutation w
        (saved (next_acc (data w) + 1)
           (<[pretty (next_acc (data w)) := opened name pin now]> (accounts (data w))))
  | mutation_deposit acc a amt now :
      accounts (data w) !! acc = Some a ->
      (amt <=? 0)%float = false ->
      mutation w
        (saved (next_acc (data w))
           (<[acc := posted a (balance a + amt)
                       (Entry now "deposit" (PyFloat amt) "Cash deposit")]>
              (accounts (data w))))
  | mutation_withdraw acc a amt now :
      accounts (data w) !! acc = Some a ->
      (amt <=? 0)%float = false ->
      (balance a <? amt)%float = false ->
      mutation w
        (saved (next_acc (data w))
           (<[acc := posted a (balance a - amt)
                       (Entry now "withdraw" (PyFloat amt) "Cash withdrawal")]>
              (accounts (data w))))
  | mutation_transfer acc to_acc a t amt now_out now_in :
      to_acc ≠ acc ->
      accounts (data w) !! acc = Some a ->
      accounts (data w) !! to_acc = Some t ->
      (amt <=? 0)%float = false ->
      (balance a <? amt)%float = false ->
      mutation w
        (saved (next_acc (data w))
           (<[to_acc := posted t (balance t + amt)
                (Entry now_in "transfer_in" (PyFloat amt) ("From " +:+ acc))]>
              (<[acc := posted a (balance a - amt)
                  (Entry now_out "transfer_out" (PyFloat amt) ("To " +:+ to_acc))]>
                 (accounts (data w))))).

(** The account numbers in use are exactly 1001, ..., [next_acc - 1]. *)
Definition numbered (w : world) : Prop :=
  1001 <= next_acc (data w) /\
  forall k : string,
    is_Some (accounts (data w) !! k) <->
    exists i : Z, 1001 <= i < next_acc (data w) /\ k = pretty i.

(** No balance compares below zero. *)
Definition solvent (w : world) : Prop :=
  forall (k : string) (a : account),
    accounts (data w) !! k = Some a -> (balance a <? 0)%float = false.

(** The exact value of a finite float, in units of 2^-1074 (every finite
    binary64 number is a whole number of them); 0 for infinities and NaN. *)
Definition units (x : float) : Z :=
  match Prim2SF x with
  | S754_finite s m e => cond_Zopp s (Zpos m * 2 ^ (e + 1074))
  | _ => 0
  end.

(** The exact sum of all balances. *)
Definition total (m : gmap string account) : Z :=
  map_fold (fun (_ : string) (a : account) (s : Z) => units (balance a) + s) 0 m.

(** The float sum or difference is the exact one: nothing was rounded. *)
Definition exact_add (x y : float) : bool :=
  is_finite x && is_finite y && is_finite (x + y) &&
  (units (x + y) =? units x + units y).

Definition exact_sub (x y : float) : bool :=
  is_finite x && is_finite y && is_finite (x - y) &&
  (units (x - y) =? units x - units y).

Definition balance_of (w : world) (acc : string) : float :=
  match accounts (data w) !! acc with
  | Some a => balance a
  | None => 0
  end.

(** Every balance update of the call [o] in [w] is exact. *)
Definition exact_call (o : op) (w : world) : bool :=
  match o, (call o w).1 with
  | Deposit acc _ _, Return (Deposited amt) => exact_add (balance_of w acc) amt
  | Withdraw acc _ _, Return (Withdrew amt) => exact_sub (balance_of w acc) amt
  | Transfer acc to_acc _ _ _, Return (Transferred amt _) =>
      exact_sub (balance_of w acc) amt && exact_add (balance_of w to_acc) amt
  | _, _ => true
  end.

Fixpoint exact_run (ops : list op) (w : world) : bool :=
  match ops with
  | [] => true
  | o :: ops' => exact_call o w && exact_run ops' (after o w)
  end.

(** What the call [o] deposits, less what it withdraws, when it succeeds. *)
Definition net_deposit (o : op) (w : world) : Z :=
  match (call o w).1 with
  | Return (Deposited amt) => units amt
  | Return (Withdrew amt) => - units amt
  | _ => 0
  end.

Fixpoint net_deposits (ops : list op) (w : world) : Z :=
  match ops with
  | [] => 0
  | o :: ops' => net_deposit o w + net_deposits ops' (after o w)
  end.

(** A Python number used in float arithmetic. *)
Definition as_float (n : number) : float :=
  match n with
  | PyInt z => SF2Prim (binary_normalize prec emax z 0 false)
  | PyFloat x => x
  end.

(** The signed amount of a history entry: create, deposit and transfer_in
    entries count positive, withdraw and transfer_out entries negative. *)
Definition signed_amount (e : entry) : float :=
  if String.eqb (type e) "create" || String.eqb (type e) "deposit"
     || String.eqb (type e) "transfer_in"
  then as_float (amount e)
  else if String.eqb (type e) "withdraw" || String.eqb (type e) "transfer_out"
  then (- as_float (amount e))%float
  else 0%float.

(** The signed sum of a history, added up in the order of the entries. *)
Definition signed_sum (h : list entry) : float :=
  fold_left (fun (s : float) (e : entry) => (s + signed_amount e)%float) h 0%float.

Definition replayable (w : world) : Prop :=
  forall (k : string) (a : account),
    accounts (data w) !! k = Some a -> signed_sum (history a) = balance a.

(** The exact signed sum of a history, in units of 2^-1074. *)
Definition exact_signed_sum (h : list entry) : Z :=
  foldr (fun (e : entry) (s : Z) => units (signed_amount e) + s) 0 h.

(** Python's [sum] over floats: added from the left, starting from zero. *)
Definition py_sum (xs : list float) : float :=
  fold_left (fun (s x : float) => (s + x)%float) xs 0%float.

Definition credit (e : entry) : bool :=
  String.eqb (type e) "create" || String.eqb (type e) "deposit"
  || String.eqb (type e) "transfer_in".

Definition debit (e : entry) : bool :=
  String.eqb (type e) "withdraw" || String.eqb (type e) "transfer_out".

(** The formula of the specification, evaluated in binary64:
    [sum(+amount for deposit/transfer_in/create)
     - sum(amount for withdraw/transfer_out)]. *)
Definition grouped_sum (h : list entry) : float :=
  (py_sum (map (fun e => as_float (amount e)) (List.filter credit h))
   - py_sum (map (fun e => as_float (amount e)) (List.filter debit h)))%float.




(** The call [o] in [w] is a successful deposit, withdrawal or transfer that
    involves the account [k]. *)
Definition touches (k : string) (o : op) (w : world) : bool :=
  match o, (call o w).1 with
  | Deposit acc _ _, Return (Deposited _) => String.eqb acc k
  | Withdraw acc _ _, Return (Withdrew _) => String.eqb acc k
  | Transfer acc to_acc _ _ _, Return (Transferred _ _) =>
      String.eqb acc k || String.eqb to_acc k
  | _, _ => false
  end.

Fixpoint operations_on (k : string) (ops : list op) (w : world) : nat :=
  match ops with
  | [] => 0%nat
  | o :: ops' => ((if touches k o w then 1 else 0) + operations_on k ops' (after o w))%nat
  end.

(** The length of the history of [k]; a number not issued yet counts with the
    creation entry it will start with. *)
Definition history_size (w : world) (k : string) : nat :=
  match accounts (data w) !! k with
  | Some a => length (history a)
  | None => 1%nat
  end.

(** The results of rounding carry the sign they were given. *)
Inductive signed_as (s : bool) : spec_float -> Prop :=
  | signed_zero : signed_as s (S754_zero s)
  | signed_finite m e : signed_as s (S754_finite s m e)
  | signed_infinity : signed_as s (S754_infinity s)
  | signed_nan : signed_as s S754_nan.


(** ** Notions used by the further properties *)

(** The test of the PIN prompt: [len(pin) == 4 and pin.isdigit()]. *)
Definition valid_pin (p : string) : bool :=
  (Z.of_nat (len p) =? 4) && isdigit p.

(** The entry that [create_account] writes. *)
Definition is_creation (e : entry) : bool :=
  String.eqb (type e) "create"
  && match amount e with PyInt 0 => true | _ => false end
  && String.eqb (note e) "Account created".

(** An entry of a deposit, a withdrawal or a transfer: its amount is a float
    that passed the test [amt <= 0]. *)
Definition is_movement (e : entry) : bool :=
  (String.eqb (type e) "deposit" || String.eqb (type e) "withdraw"
   || String.eqb (type e) "transfer_in" || String.eqb (type e) "transfer_out")
  && match amount e with PyFloat x => negb (x <=? 0)%float | PyInt _ => false end.

(** ** The console: prompts, menus and the main loop

    The functions above take what was typed as parameters.  Here the program
    reads it: [stdin] holds the lines still to be typed (each as [strip()]
    leaves it), [input] takes the next one and raises [EOFError] when none is
    left, [clock] counts the readings of [datetime.utcnow()], and [stdout]
    collects what is printed (the fixed texts of the menus and the prompts
    are left out).  Python's [float] and the clock are parameters.  The two
    [while True] loops take a bound on their iterations, and [OutOfFuel] is
    the answer of a loop that reached it. *)

Inductive output :=
  | Printed (m : message)
  | PinMismatch                       (* PINs do not match. Try again. *)
  | PinMalformed                      (* PIN must be exactly 4 digits. *)
  | InvalidChoice                     (* Invalid choice. *)
  | LoggingOut                        (* Logging out. *)
  | Goodbye.                          (* Goodbye! *)

Record console := Console {
  world_of : world;
  stdin : list string;
  clock : nat;
  stdout : list output
}.

Inductive run (A : Type) :=
  | Finished (a : A) (c : console)
  | Crashed (e : exn) (c : console)
  | OutOfFuel.
Arguments Finished {A} a c.
Arguments Crashed {A} e c.
Arguments OutOfFuel {A}.

Definition IO (A : Type) : Type := console -> run A.

Definition io_ret {A} (a : A) : IO A := fun c => Finished a c.

Definition io_bind {A B} (m : IO A) (k : A -> IO B) : IO B :=
  fun c =>
    match m c with
    | Finished a c' => k a c'
    | Crashed e c' => Crashed e c'
    | OutOfFuel => OutOfFuel
    end.

Notation "x <-- m ;; k" := (io_bind m (fun x => k))
  (at level 100, m at next level, right associativity).
Notation "m >>> k" := (io_bind m (fun _ => k))
  (at level 100, right associativity).

Definition input : IO string :=
  fun c =>
    match stdin c with
    | [] => Crashed EOFError c
    | line :: rest => Finished line (Console (world_of c) rest (clock c) (stdout c))
    end.

Definition print (o : output) : IO unit :=
  fun c => Finished tt (Console (world_of c) (stdin c) (clock c) (stdout c ++ [o])).

(** A statement on [data], run in the console. *)
Definition on_data {A} (m : M A) : IO A :=
  fun c =>
    match m (world_of c) with
    | (Return a, w) => Finished a (Console w (stdin c) (clock c) (stdout c))
    | (Raise e, w) => Crashed e (Console w (stdin c) (clock c) (stdout c))
    end.

Section Console.

Variable to_float : string -> option float.
Variable utcnow : nat -> string.

Definition now : IO string :=
  fun c => Finished (utcnow (clock c))
             (Console (world_of c) (stdin c) (S (clock c)) (stdout c)).

(** The body of a function that reads the clock once, in [add_history], when
    it succeeds. *)
Definition stamped (body : string -> M message) : IO message :=
  fun c =>
    match body (utcnow (clock c)) (world_of c) with
    | (Return m, w) =>
        Finished m
          (Console w (stdin c)
             (if succeeded (Return m) then S (clock c) else clock c) (stdout c))
    | (Raise e, w) => Crashed e (Console w (stdin c) (clock c) (stdout c))
    end.

(** The body of [transfer], which reads the clock twice when it succeeds. *)
Definition stamped_twice (body : string -> string -> M message) : IO message :=
  fun c =>
    match body (utcnow (clock c)) (utcnow (S (clock c))) (world_of c) with
    | (Return m, w) =>
        Finished m
          (Console w (stdin c)
             (if succeeded (Return m) then S (S (clock c)) else clock c) (stdout c))
    | (Raise e, w) => Crashed e (Console w (stdin c) (clock c) (stdout c))
    end.

(** The [while True] loop of [create_account]. *)
Fixpoint read_pin (fuel : nat) : IO string :=
  match fuel with
  | O => fun _ => OutOfFuel
  | S fuel' =>
      pin <-- input ;;
      if (Z.of_nat (len pin) =? 4) && isdigit pin then
        pin_confirm <-- input ;;
        if String.eqb pin pin_confirm then io_ret pin
        else print PinMismatch >>> read_pin fuel'
      else print PinMalformed >>> read_pin fuel'
  end.

Definition create_account_io (fuel : nat) : IO unit :=
  name <-- input ;;
  if String.eqb name "" then print (Printed NameEmpty)
  else
    pin <-- read_pin fuel ;;
    n <-- on_data get_next_acc ;;
    let acc_num : string := pretty n in
    on_data (set_next_acc (n + 1)) >>>
    t <-- now ;;
    on_data (set_account acc_num
               (Account name pin 0%float [Entry t "create" (PyInt 0) "Account created"])) >>>
    on_data save_data >>>
    print (Printed (AccountCreated acc_num)).

(** [authenticate] returns the account number, or [None] after printing why
    not. *)
Definition authenticate_io : IO (option string) :=
  acc <-- input ;;
  pin_typed <-- input ;;
  m <-- on_data (authenticate acc pin_typed) ;;
  match m with
  | LoggedIn acc' => io_ret (Some acc')
  | _ => print (Printed m) >>> io_ret None
  end.

Definition show_balance_io (acc : string) : IO unit :=
  m <-- on_data (show_balance acc) ;;
  print (Printed m).

Definition deposit_io (acc : string) : IO unit :=
  line <-- input ;;
  m <-- stamped (deposit acc (to_float line)) ;;
  print (Printed m).

Definition withdraw_io (acc : string) : IO unit :=
  line <-- input ;;
  m <-- stamped (withdraw acc (to_float line)) ;;
  print (Printed m).

(** The amount is asked for only when the recipient passed both tests. *)
Definition transfer_io (acc : string) : IO unit :=
  to_acc <-- input ;;
  if String.eqb to_acc acc then print (Printed SameAccount)
  else
    known <-- on_data (has_account to_acc) ;;
    if negb known then print (Printed RecipientNotFound)
    else
      line <-- input ;;
      m <-- stamped_twice (transfer acc to_acc (to_float line)) ;;
      print (Printed m).

Definition view_history_io (acc : string) : IO unit :=
  m <-- on_data (view_history acc) ;;
  print (Printed m).

Fixpoint account_menu (fuel : nat) (acc : string) : IO unit :=
  match fuel with
  | O => fun _ => OutOfFuel
  | S fuel' =>
      choice <-- input ;;
      if String.eqb choice "1" then show_balance_io acc >>> account_menu fuel' acc
      else if String.eqb choice "2" then deposit_io acc >>> account_menu fuel' acc
      else if String.eqb choice "3" then withdraw_io acc >>> account_menu fuel' acc
      else if String.eqb choice "4" then transfer_io acc >>> account_menu fuel' acc
      else if String.eqb choice "5" then view_history_io acc >>> account_menu fuel' acc
      else if String.eqb choice "6" then print LoggingOut
      else print InvalidChoice >>> account_menu fuel' acc
  end.

(** The loop of [main]; [if acc:] is false for [None] and for the empty
    string. *)
Fixpoint main_loop (fuel : nat) : IO unit :=
  match fuel with
  | O => fun _ => OutOfFuel
  | S fuel' =>
      choice <-- input ;;
      if String.eqb choice "1" then create_account_io fuel' >>> main_loop fuel'
      else if String.eqb choice "2" then
        logged <-- authenticate_io ;;
        match logged with
        | Some acc => if String.eqb acc "" then io_ret tt else account_menu fuel' acc
        | None => io_ret tt
        end >>>
        on_data reload >>>
        main_loop fuel'
      else if String.eqb choice "3" then print Goodbye
      else print InvalidChoice >>> main_loop fuel'
  end.

Definition main (fuel : nat) : IO unit :=
  on_data reload >>> main_loop fuel.

End Console.

(** The program started with the lines [lines] to come and the file [f]. *)
Definition start (f : option store) (lines : list string) : console :=
  Console (World (Store 0 ∅) f) lines 0%nat [].

(** The calls of a session in the menu of the account [acc]. *)
Definition by_account (acc : string) (o : op) : Prop :=
  match o with
  | ShowBalance a | Deposit a _ _ | Withdraw a _ _ | Transfer a _ _ _ _
  | ViewHistory a => a = acc
  | _ => False
  end.

(** A [transfer_in] entry written by a transfer from the account [acc]. *)
Definition credit_from (acc : string) (e : entry) : Prop :=
  type e = "transfer_in" /\ note e = "From " +:+ acc /\
  exists amt, amount e = PyFloat amt /\ (amt <=? 0)%float = false.

(** The account [a'] is the account [a] after transfers from [acc] were
    credited to it: same name and PIN, the history extended by [transfer_in]
    entries from [acc], the balance raised by their amounts in turn. *)
Definition credited (acc : string) (a a' : account) : Prop :=
  name a' = name a /\ pin a' = pin a /\
  exists credits,
    history a' = history a ++ credits /\
    Forall (credit_from acc) credits /\
    balance a' =
      fold_left (fun (b : float) (e : entry) => (b + as_float (amount e))%float)
                credits (balance a).

(** The history kept under the number [k] ([[]] when there is no account). *)
Definition history_of (w : world) (k : string) : list entry :=
  match accounts (data w) !! k with
  | Some a => history a
  | None => []
  end.

(** The amounts of the [transfer_out] entries of [h] that name [k], and of
    its [transfer_in] entries that name [acc], in the order of the entries. *)
Definition sent_to (k : string) (h : list entry) : list number :=
  map amount
    (List.filter
       (fun e => String.eqb (type e) "transfer_out" && String.eqb (note e) ("To " +:+ k)) h).

Definition received_from (acc : string) (h : list entry) : list number :=
  map amount
    (List.filter
       (fun e => String.eqb (type e) "transfer_in" && String.eqb (note e) ("From " +:+ acc))
       h).

(** What is in the file is what is in memory. *)
Definition synced (w : world) : Prop := load_data (file w) = data w.

(** The program did not stop on [KeyError], nor the model on its bound; the
    calls it made are calls [P], and it read forward in [stdin]. *)
Definition ends_well {A} (P : op -> Prop) (c : console) (r : run A) : Prop :=
  match r with
  | Finished _ c' | Crashed EOFError c' =>
      (exists ops, Forall P ops /\ world_of c' = exec ops (world_of c)) /\
      (length (stdin c') <= length (stdin c))%nat
  | Crashed (KeyError _) _ => False
  | OutOfFuel => False
  end.

(** A reading of [float] for the sample sessions. *)
Definition sample_float (s : string) : option float :=
  if String.eqb s "500" then Some 500%float
  else if String.eqb s "600" then Some 600%float
  else if String.eqb s "200" then Some 200%float
  else None.

Definition sample_clock (n : nat) : string := "t" +:+ pretty n.

(** The scenario of the specification, as typed at the console. *)
Definition sample_lines : list string :=
  ["1"; "Asha"; "12a4"; "1234"; "1234";
   "2"; "1001"; "1234"; "2"; "500"; "3"; "600"; "7"; "6";
   "1"; "Ravi"; "0000"; "0000";
   "2"; "1001"; "1234"; "4"; "1002"; "200"; "5"; "6";
   "3"; "never read"].

(** ** Sample sessions *)

Set Warnings "-inexact-float".

(** The scenario of the specification: two accounts, a deposit, a refused
    withdrawal and a transfer. *)
Definition opening_calls : list op :=
  [CreateAccount "Asha" ["1234"; "1234"] "t0";
   Deposit "1001" (Some 500%float) "t1";
   Withdraw "1001" (Some 600%float) "t2";
   CreateAccount "Ravi" ["0000"; "0000"] "t3"].

Definition scenario_calls : list op :=
  opening_calls ++ [Transfer "1001" "1002" (Some 200%float) "t4" "t5"].

Definition before_transfer : world := exec opening_calls fresh.

Definition scenario : world := exec scenario_calls fresh.

(** Two deposits of 1e308 overflow the balance to +infinity. *)
Definition overflowed : world :=
  exec [CreateAccount "Asha" ["1234"; "1234"] "t0";
        Deposit "1001" (Some 1e308%float) "t1";
        Deposit "1001" (Some 1e308%float) "t2"] fresh.


(** A balance of 1e16, above 2^53, where the binary64 numbers are 2 apart. *)
Definition heavy : world :=
  exec [CreateAccount "Asha" ["1234"; "1234"] "t0";
        CreateAccount "Ravi" ["0000"; "0000"] "t1";
        Deposit "1001" (Some 1e16%float) "t2"] fresh.

Definition one_unit : op := Transfer "1001" "1002" (Some 1%float) "t3" "t4".

(** 1e16 paid in and out again, then ten and twenty cents paid in. *)
Definition churned : world :=
  exec [CreateAccount "Asha" ["1234"; "1234"] "t0";
        Deposit "1001" (Some 1e16%float) "t1";
        Withdraw "1001" (Some 1e16%float) "t2";
        Deposit "1001" (Some 0.1%float) "t3";
        Deposit "1001" (Some 0.2%float) "t4"] fresh.

(** A deposit of [float("nan")] is accepted: NaN is not [<= 0]. *)
Definition poisoned : world :=
  exec [CreateAccount "Asha" ["1234"; "1234"] "t0";
        Deposit "1001" (Some nan) "t1"] fresh.

(** Ten and twenty cents, before five cents move from the first account to
    the second. *)
Definition dimes : world :=
  exec [CreateAccount "Asha" ["1234"; "1234"] "t0";
        CreateAccount "Ravi" ["0000"; "0000"] "t1";
        Deposit "1001" (Some 0.1%float) "t2";
        Deposit "1002" (Some 0.2%float) "t3"] fresh.

Definition five_cents : op := Transfer "1001" "1002" (Some 0.05%float) "t4" "t5".

(** The account menu of 1001 after the scenario, and a first start. *)
Definition sample_menu : console :=
  Console scenario ["1"; "2"; "abc"; "4"; "1002"; "200"; "9"; "6"; "left"] 7%nat [].

Definition sample_opening : console :=
  Console fresh ["Asha"; "12a4"; "1234"; "1235"; "4321"; "4321"; "3"] 0%nat [].

(** * Properties *)

(** ** Binary64 arithmetic *)

Lemma binary_round_aux_signed s mx ex lx :
  signed_as s (binary_round_aux prec emax s mx ex lx).
Proof.
  unfold binary_round_aux.
  destruct (shr_fexp prec emax mx ex lx) as [mrs' e'].
  destruct (shr_fexp prec emax _ e' loc_Exact) as [mrs'' e''].
  destruct (shr_m mrs''); try constructor.
  destruct (Z.leb e'' (emax - prec)); constructor.
Qed.

Lemma binary_round_signed s m e : signed_as s (binary_round prec emax s m e).
Proof.
  unfold binary_round.
  destruct (shl_align m e _) as [mz ez]. apply binary_round_aux_signed.
Qed.

Lemma signed_false_not_below x : signed_as false x -> SFltb x (S754_zero false) = false.
Proof. now destruct 1. Qed.

Lemma binary_normalize_not_below m e :
  0 <= m -> SFltb (binary_normalize prec emax m e false) (S754_zero false) = false.
Proof.
  intros Hm. destruct m as [|p|p]; simpl.
  - reflexivity.
  - apply signed_false_not_below, binary_round_signed.
  - lia.
Qed.

Lemma digits2_pos_bounds m :
  2 ^ (Zpos (digits2_pos m) - 1) <= Zpos m < 2 ^ Zpos (digits2_pos m).
Proof.
  induction m as [m IH|m IH|]; simpl digits2_pos.
  - rewrite Pos2Z.inj_succ. replace (Z.succ (Zpos (digits2_pos m)) - 1) with (Z.succ (Zpos (digits2_pos m) - 1)) by lia.
    rewrite !Z.pow_succ_r by lia. lia.
  - rewrite Pos2Z.inj_succ. replace (Z.succ (Zpos (digits2_pos m)) - 1) with (Z.succ (Zpos (digits2_pos m) - 1)) by lia.
    rewrite !Z.pow_succ_r by lia. lia.
  - simpl. lia.
Qed.

Lemma iter_xO m d : Zpos (Pos.iter xO m d) = Zpos m * 2 ^ Zpos d.
Proof.
  change (Pos.iter xO m d) with (shift_pos d m).
  rewrite shift_pos_correct, Z.pow_pos_fold. lia.
Qed.

Lemma valid_finite s m e :
  valid_binary (S754_finite s m e) = true ->
  SpecFloat.emin prec emax <= e /\ Zpos (digits2_pos m) <= prec /\
  (SpecFloat.emin prec emax < e -> Zpos (digits2_pos m) = prec).
Proof.
  unfold SpecFloat.valid_binary, bounded, canonical_mantissa, fexp.
  intros H. apply andb_prop in H as [H _]. apply Z.eqb_eq in H. lia.
Qed.

(** The aligned mantissa of the larger of two positive floats is the larger. *)
Lemma aligned_ge mb eb ma ea :
  valid_binary (S754_finite false mb eb) = true ->
  valid_binary (S754_finite false ma ea) = true ->
  SFltb (S754_finite false mb eb) (S754_finite false ma ea) = false ->
  Zpos (fst (shl_align ma ea (Z.min eb ea))) <= Zpos (fst (shl_align mb eb (Z.min eb ea))).
Proof.
  intros Vb Va Hlt.
  apply valid_finite in Vb as (Hb1 & Hb2 & Hb3), Va as (Ha1 & Ha2 & Ha3).
  pose proof (digits2_pos_bounds mb) as Db. pose proof (digits2_pos_bounds ma) as Da.
  unfold SFltb, SFcompare in Hlt. unfold shl_align.
  destruct (Z.compare_spec eb ea) as [Heq|Hl|Hg]; try discriminate.
  - subst ea. rewrite Z.min_id, Z.sub_diag. simpl.
    destruct (Pos.compare_cont Eq mb ma) eqn:Hc; try discriminate.
    + apply Pos.compare_eq in Hc. subst. lia.
    + change (Pos.compare_cont Eq mb ma) with (Pos.compare mb ma) in Hc.
      apply Pos.compare_gt_iff in Hc. lia.
  - rewrite Z.min_r by lia. rewrite Z.sub_diag. simpl fst at 1.
    destruct (ea - eb) as [|d|d] eqn:Hd; try lia. simpl fst.
    rewrite iter_xO.
    assert (Zpos (digits2_pos mb) = prec) as Hp by (apply Hb3; lia).
    rewrite Hp in Db.
    assert (Zpos ma < 2 ^ prec).
    { eapply Z.lt_le_trans; [apply Da|]. apply Z.pow_le_mono_r; lia. }
    assert (2 ^ 1 <= 2 ^ Zpos d) by (apply Z.pow_le_mono_r; lia).
    change (2 ^ prec) with (2 ^ (prec - 1) * 2 ^ 1) in H.
    nia.
Qed.

Lemma prim_zero : Prim2SF 0%float = (S754_zero false).
Proof. reflexivity. Qed.

(** A sum of a balance that is not below zero and an amount that passed the
    test [amt <= 0] is not below zero. *)
Lemma add_not_below_zero (b a : float) :
  (b <? 0)%float = false -> (a <=? 0)%float = false -> (b + a <? 0)%float = false.
Proof.
  rewrite !FloatAxioms.ltb_spec, FloatAxioms.leb_spec, FloatAxioms.add_spec, prim_zero.
  destruct (Prim2SF b) as [sb|sb| |sb mb eb], (Prim2SF a) as [sa|sa| |sa ma ea];
    try destruct sb; try destruct sa; try reflexivity; try discriminate.
  intros _ _. unfold SF64add, SFadd.
  apply binary_normalize_not_below. simpl. lia.
Qed.

Lemma sub_not_below_zero (b a : float) :
  (b <? 0)%float = false -> (a <=? 0)%float = false -> (b <? a)%float = false ->
  (b - a <? 0)%float = false.
Proof.
  rewrite !FloatAxioms.ltb_spec, FloatAxioms.leb_spec, FloatAxioms.sub_spec, prim_zero.
  pose proof (Prim2SF_valid b) as Vb. pose proof (Prim2SF_valid a) as Va.
  destruct (Prim2SF b) as [sb|sb| |sb mb eb], (Prim2SF a) as [sa|sa| |sa ma ea];
    try destruct sb; try destruct sa; try reflexivity; try discriminate.
  intros _ _ Hlt. unfold SF64sub, SFsub.
  apply binary_normalize_not_below. unfold cond_Zopp.
  pose proof (aligned_ge mb eb ma ea Vb Va Hlt). lia.
Qed.

(** Taking a finite balance from itself leaves zero. *)
Lemma sub_diag_finite (b : float) :
  is_finite b = true -> (b - b)%float = 0%float.
Proof.
  intros Hf. apply Prim2SF_inj. rewrite FloatAxioms.sub_spec, prim_zero.
  unfold is_finite, is_nan, is_infinity in Hf.
  rewrite !FloatAxioms.eqb_spec, FloatAxioms.abs_spec in Hf.
  destruct (Prim2SF b) as [[]|[]| |s m e]; try reflexivity; try discriminate.
  unfold SF64sub, SFsub. rewrite Z.sub_diag. reflexivity.
Qed.

Lemma sub_is_add_opp (x y : float) : (x - y)%float = (x + - y)%float.
Proof.
  apply Prim2SF_inj. rewrite FloatAxioms.sub_spec, FloatAxioms.add_spec, FloatAxioms.opp_spec.
  destruct (Prim2SF x) as [[]|[]| |sx mx ex], (Prim2SF y) as [[]|[]| |sy my ey];
    try reflexivity.
  all: unfold SF64sub, SF64add, SFsub, SFadd, SFopp; f_equal; destruct sx, sy; unfold cond_Zopp, negb; lia.
Qed.

Lemma exact_add_units x y : exact_add x y = true -> units (x + y) = units x + units y.
Proof.
  unfold exact_add. intros H. apply andb_true_iff in H as [_ H]. now apply Z.eqb_eq.
Qed.

Lemma exact_sub_units x y : exact_sub x y = true -> units (x - y) = units x - units y.
Proof.
  unfold exact_sub. intros H. apply andb_true_iff in H as [_ H]. now apply Z.eqb_eq.
Qed.












(** ** The state changes of the functions, in closed form *)

Lemma create_account_run name answers now w :
  create_account name answers now w =
    if String.eqb name "" then (Return NameEmpty, w)
    else match choose_pin answers with
         | None => (Raise EOFError, w)
         | Some pin =>
             (Return (AccountCreated (pretty (next_acc (data w)))),
              saved (next_acc (data w) + 1)
                    (<[pretty (next_acc (data w)) := opened name pin now]> (accounts (data w))))
         end.
Proof.
  unfold create_account. destruct (String.eqb name ""); [reflexivity|].
  destruct (choose_pin answers); reflexivity.
Qed.

Lemma deposit_run acc typed now w :
  deposit acc typed now w =
    match typed with
    | None => (Return InvalidAmount, w)
    | Some amt =>
        if (amt <=? 0)%float then (Return AmountNotPositive, w)
        else match accounts (data w) !! acc with
             | None => (Raise (KeyError acc), w)
             | Some a =>
                 (Return (Deposited amt),
                  saved (next_acc (data w))
                        (<[acc := posted a (balance a + amt)
                                    (Entry now "deposit" (PyFloat amt) "Cash deposit")]>
                           (accounts (data w))))
             end
    end.
Proof.
  unfold deposit. destruct typed as [amt|]; [|reflexivity].
  destruct (amt <=? 0)%float; [reflexivity|].
  unfold bind, add_balance, add_history, get_account, set_account, save_data, ret, bind.
  destruct (accounts (data w) !! acc) as [a|] eqn:Ha; [|reflexivity].
  cbn. rewrite lookup_insert_eq. cbn. rewrite insert_insert_eq. reflexivity.
Qed.

Lemma withdraw_run acc typed now w :
  withdraw acc typed now w =
    match typed with
    | None => (Return InvalidAmount, w)
    | Some amt =>
        if (amt <=? 0)%float then (Return AmountNotPositive, w)
        else match accounts (data w) !! acc with
             | None => (Raise (KeyError acc), w)
             | Some a =>
                 if (balance a <? amt)%float then (Return InsufficientFunds, w)
                 else
                   (Return (Withdrew amt),
                    saved (next_acc (data w))
                          (<[acc := posted a (balance a - amt)
                                      (Entry now "withdraw" (PyFloat amt) "Cash withdrawal")]>
                             (accounts (data w))))
             end
    end.
Proof.
  unfold withdraw. destruct typed as [amt|]; [|reflexivity].
  destruct (amt <=? 0)%float; [reflexivity|].
  unfold bind at 1. unfold get_account at 1.
  destruct (accounts (data w) !! acc) as [a|] eqn:Ha; [|reflexivity].
  destruct (balance a <? amt)%float; [reflexivity|].
  unfold bind, sub_balance, add_history, get_account, set_account, save_data, ret, bind.
  rewrite Ha. cbn. rewrite lookup_insert_eq. cbn. rewrite insert_insert_eq. reflexivity.
Qed.

Lemma insert_pair_again (m : gmap string account) i j a1 a2 t1 t2 :
  i ≠ j ->
  <[j := t2]> (<[i := a2]> (<[j := t1]> (<[i := a1]> m))) = <[j := t2]> (<[i := a2]> m).
Proof.
  intros Hij. apply map_eq; intros k.
  rewrite !lookup_insert. repeat case_decide; congruence.
Qed.

Lemma transfer_run acc to_acc typed now_out now_in w :
  transfer acc to_acc typed now_out now_in w =
    if String.eqb to_acc acc then (Return SameAccount, w)
    else match accounts (data w) !! to_acc with
         | None => (Return RecipientNotFound, w)
         | Some t =>
             match typed with
             | None => (Return InvalidAmount, w)
             | Some amt =>
                 if (amt <=? 0)%float then (Return AmountNotPositive, w)
                 else match accounts (data w) !! acc with
                      | None => (Raise (KeyError acc), w)
                      | Some a =>
                          if (balance a <? amt)%float then (Return InsufficientFunds, w)
                          else
                            (Return (Transferred amt to_acc),
                             saved (next_acc (data w))
                               (<[to_acc := posted t (balance t + amt)
                                    (Entry now_in "transfer_in" (PyFloat amt) ("From " +:+ acc))]>
                                  (<[acc := posted a (balance a - amt)
                                      (Entry now_out "transfer_out" (PyFloat amt) ("To " +:+ to_acc))]>
                                     (accounts (data w)))))
                      end
             end
         end.
Proof.
  unfold transfer. destruct (String.eqb_spec to_acc acc) as [|Hne]; [reflexivity|].
  unfold bind at 1. unfold has_account at 1.
  destruct (accounts (data w) !! to_acc) as [t|] eqn:Ht; [|reflexivity].
  rewrite bool_decide_eq_true_2 by eauto. cbn [negb].
  destruct typed as [amt|]; [|reflexivity].
  destruct (amt <=? 0)%float; [reflexivity|].
  unfold bind at 1. unfold get_account at 1.
  destruct (accounts (data w) !! acc) as [a|] eqn:Ha; [|reflexivity].
  destruct (balance a <? amt)%float; [reflexivity|].
  unfold bind, sub_balance, add_balance, add_history, get_account, set_account,
    save_data, ret, bind.
  rewrite Ha. cbn.
  rewrite lookup_insert_ne, Ht by congruence. cbn.
  rewrite lookup_insert_ne, lookup_insert_eq by congruence. cbn.
  rewrite lookup_insert_ne, lookup_insert_eq by congruence. cbn.
  rewrite insert_pair_again by congruence. reflexivity.
Qed.

Lemma authenticate_run acc pin_typed w :
  authenticate acc pin_typed w =
    match accounts (data w) !! acc with
    | None => (Return AccountNotFound, w)
    | Some acc_data =>
        if negb (String.eqb (pin acc_data) pin_typed) then (Return InvalidPin, w)
        else (Return (LoggedIn acc), w)
    end.
Proof.
  unfold authenticate, bind, find_account.
  destruct (accounts (data w) !! acc) as [a|]; [|reflexivity].
  destruct (negb _); reflexivity.
Qed.

Lemma show_balance_run acc w :
  show_balance acc w =
    match accounts (data w) !! acc with
    | None => (Raise (KeyError acc), w)
    | Some a => (Return (CurrentBalance (balance a)), w)
    end.
Proof.
  unfold show_balance, bind, get_account.
  destruct (accounts (data w) !! acc); reflexivity.
Qed.

Lemma view_history_run acc w :
  view_history acc w =
    match accounts (data w) !! acc with
    | None => (Raise (KeyError acc), w)
    | Some a => (Return (HistoryLines (rev (history a))), w)
    end.
Proof.
  unfold view_history, bind, get_account.
  destruct (accounts (data w) !! acc); reflexivity.
Qed.

(** ** Calls and sessions *)

Lemma exec_cons o ops w : exec (o :: ops) w = exec ops (after o w).
Proof. reflexivity. Qed.

Lemma exec_snoc ops o w : exec (ops ++ [o]) w = after o (exec ops w).
Proof. unfold exec. now rewrite fold_left_app. Qed.

Lemma reachable_exec ops : reachable (exec ops fresh).
Proof.
  induction ops as [|o ops IH] using rev_ind.
  - apply reachable_fresh.
  - rewrite exec_snoc. now apply reachable_call.
Qed.

Lemma reachable_session w : reachable w -> exists ops, w = exec ops fresh.
Proof.
  induction 1 as [|o w _ [ops ->]].
  - now exists [].
  - exists (ops ++ [o]). now rewrite exec_snoc.
Qed.

(** A call that does not report success leaves the world as it was, and one
    that does performed one [mutation]. *)
Lemma call_cases o w :
  (succeeded (call o w).1 = false /\ after o w = w) \/
  (succeeded (call o w).1 = true /\ mutation w (after o w)).
Proof.
  unfold after. destruct o as [nm answers now|acc p|acc|acc typed now|acc typed now
                              |acc to_acc typed now_out now_in|acc]; cbn [call].
  - rewrite create_account_run. destruct (String.eqb nm ""); [now left|].
    destruct (choose_pin answers); [right|now left]. split; [reflexivity|constructor].
  - rewrite authenticate_run. left.
    destruct (accounts (data w) !! acc); [destruct (negb _)|]; now split.
  - rewrite show_balance_run. left. destruct (accounts (data w) !! acc); now split.
  - rewrite deposit_run. destruct typed as [amt|]; [|now left].
    destruct (amt <=? 0)%float eqn:Hp; [now left|].
    destruct (accounts (data w) !! acc) as [a|] eqn:Ha; [right|now left].
    split; [reflexivity|now constructor].
  - rewrite withdraw_run. destruct typed as [amt|]; [|now left].
    destruct (amt <=? 0)%float eqn:Hp; [now left|].
    destruct (accounts (data w) !! acc) as [a|] eqn:Ha; [|now left].
    destruct (balance a <? amt)%float eqn:Hb; [now left|right].
    split; [reflexivity|now constructor].
  - rewrite transfer_run. destruct (String.eqb_spec to_acc acc) as [|Hne]; [now left|].
    destruct (accounts (data w) !! to_acc) as [t|] eqn:Ht; [|now left].
    destruct typed as [amt|]; [|now left].
    destruct (amt <=? 0)%float eqn:Hp; [now left|].
    destruct (accounts (data w) !! acc) as [a|] eqn:Ha; [|now left].
    destruct (balance a <? amt)%float eqn:Hb; [now left|right].
    split; [reflexivity|now constructor].
  - rewrite view_history_run. left. destruct (accounts (data w) !! acc); now split.
Qed.

Lemma failure_unchanged o w : succeeded (call o w).1 = false -> after o w = w.
Proof. destruct (call_cases o w) as [[_ H]|[H _]]; [auto|congruence]. Qed.

(** An invariant of the fresh world that every mutation keeps holds in every
    reachable world. *)
Lemma reachable_ind_mutation (P : world -> Prop) :
  P fresh ->
  (forall w w', reachable w -> P w -> mutation w w' -> P w') ->
  forall w, reachable w -> P w.
Proof.
  intros H0 Hstep w Hw. induction Hw as [|o w Hw IH]; [assumption|].
  destruct (call_cases o w) as [[_ ->]|[_ Hm]]; eauto.
Qed.

(** ** Account numbers *)

Lemma numbered_fresh : numbered fresh.
Proof.
  split; [cbn; lia|]. intros k. cbn. rewrite lookup_empty. split.
  - intros [? ?]; discriminate.
  - intros (i & ? & _). lia.
Qed.

Lemma numbered_unused w : numbered w -> accounts (data w) !! pretty (next_acc (data w)) = None.
Proof.
  intros [_ Hn]. apply eq_None_not_Some. intros Hs.
  apply Hn in Hs as (i & Hi & Heq). apply (inj pretty) in Heq. lia.
Qed.

Lemma numbered_mutation w w' : numbered w -> mutation w w' -> numbered w'.
Proof.
  intros [H0 Hn] Hm. split; [destruct Hm; cbn; lia|]. intros k. destruct Hm; cbn.
  - rewrite lookup_insert_is_Some, (Hn k). split.
    + intros [<-|[_ (i & Hi & ->)]]; [exists (next_acc (data w))|exists i]; split; auto; lia.
    + intros (i & Hi & ->). destruct (decide (i = next_acc (data w))) as [->|Hne]; [now left|].
      right. split; [intros Hp; apply (inj pretty) in Hp; congruence|].
      exists i. split; [lia|reflexivity].
  - rewrite lookup_insert_is_Some, <- (Hn k). split; [intros [<-|[_ ?]]; eauto|].
    intros Hk. destruct (decide (acc = k)); auto.
  - rewrite lookup_insert_is_Some, <- (Hn k). split; [intros [<-|[_ ?]]; eauto|].
    intros Hk. destruct (decide (acc = k)); auto.
  - rewrite !lookup_insert_is_Some, <- (Hn k).
    split; [intros [<-|[_ [<-|[_ ?]]]]; eauto|].
    intros Hk. destruct (decide (to_acc = k)); auto. destruct (decide (acc = k)); auto.
Qed.

Lemma reachable_numbered w : reachable w -> numbered w.
Proof.
  apply reachable_ind_mutation; [apply numbered_fresh|].
  intros ? ? _. apply numbered_mutation.
Qed.

(** What is in the file is what is in memory, so the reload after a login
    changes nothing. *)
Lemma reload_reachable w : reachable w -> reload w = (Return tt, w).
Proof.
  intros Hw. unfold reload.
  assert (load_data (file w) = data w) as ->; [|now destruct w].
  revert w Hw. apply reachable_ind_mutation; [reflexivity|].
  intros w w' _ _ Hm. now destruct Hm.
Qed.

(** ** Transfers *)

(** C1. A transfer that fails, whether it is rejected as a transfer to the
    same account, for an unknown recipient, for an invalid amount or for
    insufficient funds (or stops on an exception), leaves the whole world,
    hence every balance and every history, as it was before the call. *)
Theorem transfer_failure_leaves_world acc to_acc typed now_out now_in w :
  succeeded (transfer acc to_acc typed now_out now_in w).1 = false ->
  (transfer acc to_acc typed now_out now_in w).2 = w /\
  (forall k, accounts (data (transfer acc to_acc typed now_out now_in w).2) !! k
             = accounts (data w) !! k) /\
  (error_of (transfer acc to_acc typed now_out now_in w).1 = Some E_SameAccount \/
   error_of (transfer acc to_acc typed now_out now_in w).1 = Some E_NotFound \/
   error_of (transfer acc to_acc typed now_out now_in w).1 = Some E_InvalidAmount \/
   error_of (transfer acc to_acc typed now_out now_in w).1 = Some E_InsufficientFunds \/
   (transfer acc to_acc typed now_out now_in w).1 = Raise (KeyError acc)).
Proof.
  intros Hf.
  pose proof (failure_unchanged (Transfer acc to_acc typed now_out now_in) w Hf) as Hw.
  unfold after in Hw. cbn [call] in Hw. rewrite Hw. split; [reflexivity|]. split; [reflexivity|].
  clear Hw. revert Hf. rewrite transfer_run.
  destruct (String.eqb to_acc acc); [now auto|].
  destruct (accounts (data w) !! to_acc) as [t|]; [|now auto].
  destruct typed as [amt|]; [|now auto 6].
  destruct (amt <=? 0)%float; [now auto 6|].
  destruct (accounts (data w) !! acc) as [a|]; [|now auto 6].
  destruct (balance a <? amt)%float; [now auto 6|discriminate].
Qed.

Lemma transfer_succeeds acc to_acc a t amt now_out now_in w :
  to_acc ≠ acc ->
  accounts (data w) !! acc = Some a ->
  accounts (data w) !! to_acc = Some t ->
  (amt <=? 0)%float = false ->
  (balance a <? amt)%float = false ->
  transfer acc to_acc (Some amt) now_out now_in w =
    (Return (Transferred amt to_acc),
     saved (next_acc (data w))
       (<[to_acc := posted t (balance t + amt)
            (Entry now_in "transfer_in" (PyFloat amt) ("From " +:+ acc))]>
          (<[acc := posted a (balance a - amt)
              (Entry now_out "transfer_out" (PyFloat amt) ("To " +:+ to_acc))]>
             (accounts (data w))))).
Proof.
  intros Hne Ha Ht Hp Hb. rewrite transfer_run.
  destruct (String.eqb_spec to_acc acc); [contradiction|].
  now rewrite Ht, Hp, Ha, Hb.
Qed.

(** C6 fails as stated, because the balances are binary64 numbers: with 1e16
    in the source, the transfer of 1 succeeds, the destination receives 1,
    and the balance of the source is still 1e16; it did not decrease by the
    amount, since 1e16 - 1 is rounded back to 1e16. *)
Lemma transfer_of_one_leaves_source :
  reachable heavy /\
  (call one_unit heavy).1 = Return (Transferred 1%float "1002") /\
  balance_of heavy "1001" = 1e16%float /\
  balance_of (after one_unit heavy) "1001" = balance_of heavy "1001" /\
  balance_of (after one_unit heavy) "1002" = 1%float /\
  units (balance_of (after one_unit heavy) "1001")
    ≠ units (balance_of heavy "1001") - units 1%float.
Proof.
  split; [apply reachable_exec|]. split_and!; try (vm_compute; reflexivity).
  vm_compute. discriminate.
Qed.

(** C6, as the program has it.  A successful transfer of [amt] sets the
    balance of the source to the binary64 difference of that balance and
    [amt], and the balance of the destination, a different and existing
    account, to the binary64 sum of that balance and the same [amt]; where
    the difference is exact the source decreases by exactly [amt], and where
    the sum is exact the destination increases by exactly [amt].  It appends
    one [transfer_out] entry to the history of the source and one
    [transfer_in] entry to the history of the destination, both of amount
    [amt], the notes naming the other account; nothing else changes in any
    account. *)
Theorem transfer_success acc to_acc typed now_out now_in w amt to' w' :
  transfer acc to_acc typed now_out now_in w = (Return (Transferred amt to'), w') ->
  exists a t,
    typed = Some amt /\ to' = to_acc /\ to_acc ≠ acc /\
    accounts (data w) !! acc = Some a /\
    accounts (data w) !! to_acc = Some t /\
    (amt <=? 0)%float = false /\ (balance a <? amt)%float = false /\
    accounts (data w') !! acc =
      Some (Account (name a) (pin a) (balance a - amt)
              (history a ++ [Entry now_out "transfer_out" (PyFloat amt) ("To " +:+ to_acc)])) /\
    accounts (data w') !! to_acc =
      Some (Account (name t) (pin t) (balance t + amt)
              (history t ++ [Entry now_in "transfer_in" (PyFloat amt) ("From " +:+ acc)])) /\
    (exact_sub (balance a) amt = true ->
       units (balance_of w' acc) = units (balance a) - units amt) /\
    (exact_add (balance t) amt = true ->
       units (balance_of w' to_acc) = units (balance t) + units amt) /\
    (forall k, k ≠ acc -> k ≠ to_acc -> accounts (data w') !! k = accounts (data w) !! k) /\
    next_acc (data w') = next_acc (data w).
Proof.
  rewrite transfer_run.
  destruct (String.eqb_spec to_acc acc) as [|Hne]; [discriminate|].
  destruct (accounts (data w) !! to_acc) as [t|] eqn:Ht; [|discriminate].
  destruct typed as [x|]; [|discriminate].
  destruct (x <=? 0)%float eqn:Hp; [discriminate|].
  destruct (accounts (data w) !! acc) as [a|] eqn:Ha; [|discriminate].
  destruct (balance a <? x)%float eqn:Hb; [discriminate|].
  intros [= <- <- <-]. exists a, t. unfold balance_of. cbn.
  rewrite lookup_insert_ne, !lookup_insert_eq by congruence. cbn.
  split_and!; auto.
  - apply exact_sub_units.
  - apply exact_add_units.
  - intros k Hk1 Hk2. now rewrite !lookup_insert_ne by congruence.
Qed.

(** C7. A transfer to the source's own number is rejected as a transfer to
    the same account; with a valid source account, a transfer to a number that
    is not in the store is rejected as recipient not found; for another,
    existing recipient the amount and the funds of the source are checked as
    [withdraw] checks them: both calls report the same error, or both
    succeed. *)
Theorem transfer_rejections acc to_acc typed now_out now_in now w :
  (to_acc = acc ->
     transfer acc to_acc typed now_out now_in w = (Return SameAccount, w)) /\
  (is_Some (accounts (data w) !! acc) -> accounts (data w) !! to_acc = None ->
     transfer acc to_acc typed now_out now_in w = (Return RecipientNotFound, w)) /\
  (to_acc ≠ acc -> is_Some (accounts (data w) !! to_acc) ->
     error_of (transfer acc to_acc typed now_out now_in w).1
       = error_of (withdraw acc typed now w).1 /\
     succeeded (transfer acc to_acc typed now_out now_in w).1
       = succeeded (withdraw acc typed now w).1).
Proof.
  rewrite transfer_run, withdraw_run. split_and!.
  - intros ->. now rewrite String.eqb_refl.
  - intros [a Ha] Hn. destruct (String.eqb_spec to_acc acc) as [->|_]; [congruence|].
    now rewrite Hn.
  - intros Hne [t ->]. destruct (String.eqb_spec to_acc acc); [contradiction|].
    destruct typed as [amt|]; [|now split].
    destruct (amt <=? 0)%float; [now split|].
    destruct (accounts (data w) !! acc) as [a|]; [|now split].
    destruct (balance a <? amt)%float; now split.
Qed.

(** ** Withdrawals *)

Lemma ltb_irrefl (x : float) : (x <? x)%float = false.
Proof.
  rewrite FloatAxioms.ltb_spec. unfold SFltb, SFcompare.
  destruct (Prim2SF x) as [s|[]| |[] m e]; try reflexivity;
    rewrite Z.compare_refl;
    change (Pos.compare_cont Eq m m) with (Pos.compare m m);
    now rewrite Pos.compare_refl.
Qed.

(** Two floats that compare equal, the first above zero, are the same float. *)
Lemma eqb_positive_eq (x y : float) :
  (x =? y)%float = true -> (x <=? 0)%float = false -> x = y.
Proof.
  rewrite FloatAxioms.eqb_spec, FloatAxioms.leb_spec, prim_zero.
  intros He Hp. apply Prim2SF_inj. revert He Hp. unfold SFeqb, SFleb, SFcompare.
  destruct (Prim2SF x) as [sx|[]| |[] mx ex], (Prim2SF y) as [sy|[]| |[] my ey];
    try discriminate; try reflexivity.
  destruct (Z.compare_spec ex ey) as [->| |]; try discriminate.
  destruct (Pos.compare_cont Eq mx my) eqn:Hc; try discriminate.
  apply Pos.compare_eq in Hc. now subst.
Qed.

Lemma withdraw_succeeds acc a amt now w :
  accounts (data w) !! acc = Some a ->
  (amt <=? 0)%float = false ->
  (balance a <? amt)%float = false ->
  withdraw acc (Some amt) now w =
    (Return (Withdrew amt),
     saved (next_acc (data w))
       (<[acc := posted a (balance a - amt)
                   (Entry now "withdraw" (PyFloat amt) "Cash withdrawal")]>
          (accounts (data w)))).
Proof. intros Ha Hp Hb. now rewrite withdraw_run, Hp, Ha, Hb. Qed.

(** C5, as the program has it.  For an existing account, [withdraw] rejects
    a text that is no float and an amount [<= 0] as invalid amounts; it
    reports insufficient funds exactly when the amount passed that test and
    the balance is below it; otherwise, for an amount that is a number, it
    sets the balance to the binary64 difference of the balance and the amount
    and appends a [withdraw] entry with the note "Cash withdrawal".  An
    amount equal to the balance is accepted, and it leaves the balance zero
    when that amount is finite.  (What becomes of an amount that is NaN is
    left out.) *)
Theorem withdraw_behaviour acc a typed now w :
  accounts (data w) !! acc = Some a ->
  (typed = None -> withdraw acc typed now w = (Return InvalidAmount, w)) /\
  (forall amt, typed = Some amt -> (amt <=? 0)%float = true ->
     withdraw acc typed now w = (Return AmountNotPositive, w)) /\
  ((withdraw acc typed now w).1 = Return InsufficientFunds <->
     exists amt, typed = Some amt /\ (amt <=? 0)%float = false /\
                 (balance a <? amt)%float = true) /\
  (error_of (withdraw acc typed now w).1 = Some E_InsufficientFunds ->
     (withdraw acc typed now w).2 = w) /\
  (forall amt, typed = Some amt -> (amt <=? 0)%float = false ->
     (balance a <? amt)%float = false -> is_nan amt = false ->
     withdraw acc typed now w =
       (Return (Withdrew amt),
        saved (next_acc (data w))
          (<[acc := Account (name a) (pin a) (balance a - amt)
                      (history a ++ [Entry now "withdraw" (PyFloat amt) "Cash withdrawal"])]>
             (accounts (data w))))) /\
  (forall amt, typed = Some amt -> (amt <=? 0)%float = false ->
     (amt =? balance a)%float = true ->
     (withdraw acc typed now w).1 = Return (Withdrew amt) /\
     (is_finite amt = true ->
      balance_of (withdraw acc typed now w).2 acc = 0%float)).
Proof.
  intros Ha. rewrite withdraw_run, Ha. split_and!.
  - now intros ->.
  - intros amt -> Hp. now rewrite Hp.
  - split.
    + destruct typed as [amt|]; [|discriminate].
      destruct (amt <=? 0)%float eqn:Hp; [discriminate|].
      destruct (balance a <? amt)%float eqn:Hb; [|discriminate]. eauto.
    + intros (amt & -> & Hp & Hb). now rewrite Hp, Hb.
  - destruct typed as [amt|]; [|reflexivity].
    destruct (amt <=? 0)%float; [reflexivity|].
    destruct (balance a <? amt)%float; [reflexivity|discriminate].
  - intros amt -> Hp Hb _. now rewrite Hp, Hb.
  - intros amt -> Hp He. rewrite Hp.
    apply eqb_positive_eq in He as <-; [|assumption].
    rewrite ltb_irrefl. split; [reflexivity|]. intros Hfin.
    unfold balance_of. cbn. rewrite lookup_insert_eq. cbn.
    now apply sub_diag_finite.
Qed.

(** C5 fails as stated, because the balances are binary64 numbers.  After
    two deposits of 1e308 the balance is +infinity; the amount
    [float("1e309")], which is +infinity, equals it and is accepted, and the
    balance left is NaN, not zero.  And from a balance of 1e16 the withdrawal
    of 1 is accepted and leaves 1e16: the balance is not decreased. *)
Lemma withdraw_infinite_balance_leaves_nan :
  (reachable overflowed /\
   balance_of overflowed "1001" = infinity /\
   (infinity <=? 0)%float = false /\
   (infinity =? balance_of overflowed "1001")%float = true /\
   (call (Withdraw "1001" (Some infinity) "t3") overflowed).1 = Return (Withdrew infinity) /\
   balance_of (after (Withdraw "1001" (Some infinity) "t3") overflowed) "1001" = nan /\
   (balance_of (after (Withdraw "1001" (Some infinity) "t3") overflowed) "1001" =? 0)%float
     = false) /\
  (reachable heavy /\
   balance_of heavy "1001" = 1e16%float /\
   (call (Withdraw "1001" (Some 1%float) "t3") heavy).1 = Return (Withdrew 1%float) /\
   balance_of (after (Withdraw "1001" (Some 1%float) "t3") heavy) "1001" = 1e16%float /\
   units (balance_of (after (Withdraw "1001" (Some 1%float) "t3") heavy) "1001")
     ≠ units (balance_of heavy "1001") - units 1%float).
Proof.
  split.
  - split; [apply reachable_exec|]. vm_compute. repeat split.
  - split; [apply reachable_exec|]. split_and!; try (vm_compute; reflexivity).
    vm_compute. discriminate.
Qed.

(** ** Creating accounts *)

(** C8. [create_account] with an empty name reports it and changes nothing.
    With a name it asks for a PIN until one is chosen (and stops on
    [EOFError], nothing changed, when the input ends first); it then issues
    the number [next_acc], which no account uses yet, stores under it a new
    account with
    balance 0.0 and the single history entry [create] of amount 0, and moves
    the counter one up.  The counter of the fresh store is 1001, and in every
    reachable world the numbers in use are exactly 1001, ..., [next_acc - 1]:
    numbers are issued in sequence and never again. *)
Theorem create_account_numbers name answers now w :
  reachable w ->
  (name = "" ->
     create_account name answers now w = (Return NameEmpty, w) /\
     error_of (Return NameEmpty) = Some E_Validation) /\
  (name ≠ "" -> forall pin, choose_pin answers = Some pin ->
     accounts (data w) !! pretty (next_acc (data w)) = None /\
     create_account name answers now w =
       (Return (AccountCreated (pretty (next_acc (data w)))),
        saved (next_acc (data w) + 1)
          (<[pretty (next_acc (data w)) :=
               Account name pin 0%float [Entry now "create" (PyInt 0) "Account created"]]>
             (accounts (data w))))) /\
  (name ≠ "" -> choose_pin answers = None ->
     create_account name answers now w = (Raise EOFError, w)) /\
  (next_acc (data fresh) = 1001 /\ accounts (data fresh) = ∅ /\
   pretty (next_acc (data fresh)) = "1001") /\
  (1001 <= next_acc (data w) /\
   forall k : string,
     is_Some (accounts (data w) !! k) <->
     exists i : Z, 1001 <= i < next_acc (data w) /\ k = pretty i).
Proof.
  intros Hw. pose proof (reachable_numbered w Hw) as Hn. split_and!.
  - intros ->. split; reflexivity.
  - intros Hne p Hp. split; [now apply numbered_unused|].
    rewrite create_account_run, Hp.
    destruct (String.eqb_spec name ""); [contradiction|reflexivity].
  - intros Hne Hp. rewrite create_account_run, Hp.
    destruct (String.eqb_spec name ""); [contradiction|reflexivity].
  - reflexivity.
  - reflexivity.
  - reflexivity.
  - apply Hn.
  - apply Hn.
Qed.

(** ** Reading *)

Lemma rev_lookup {A} (l : list A) (i : nat) (x : A) :
  l !! i = Some x -> rev l !! (length l - 1 - i)%nat = Some x.
Proof.
  intros Hi. pose proof (lookup_lt_Some _ _ _ Hi) as Hlt.
  rewrite rev_alt. change (rev_append l []) with (reverse l).
  rewrite reverse_lookup by lia.
  replace (length l - S (length l - 1 - i))%nat with i by lia. exact Hi.
Qed.

(** C9. [view_history] prints the entries of the account from the last one
    appended to the first: an entry appended later is printed earlier.
    [show_balance] and [view_history] leave the world as it was, so a second
    call gives what the first one gave. *)
Theorem reads_repeatable acc a w :
  accounts (data w) !! acc = Some a ->
  view_history acc w = (Return (HistoryLines (rev (history a))), w) /\
  show_balance acc w = (Return (CurrentBalance (balance a)), w) /\
  (forall e h, history a = h ++ [e] -> rev (history a) = e :: rev h) /\
  (forall i j ei ej, (i < j)%nat ->
     history a !! i = Some ei -> history a !! j = Some ej ->
     exists pi pj, (pj < pi)%nat /\
       rev (history a) !! pi = Some ei /\ rev (history a) !! pj = Some ej) /\
  (forall o, o = ShowBalance acc \/ o = ViewHistory acc ->
     after o w = w /\ call o (after o w) = call o w).
Proof.
  intros Ha. split_and!.
  - now rewrite view_history_run, Ha.
  - now rewrite show_balance_run, Ha.
  - intros e h ->. apply rev_unit.
  - intros i j ei ej Hij Hi Hj.
    pose proof (lookup_lt_Some _ _ _ Hj) as Hlt.
    exists (length (history a) - 1 - i)%nat, (length (history a) - 1 - j)%nat.
    split; [lia|]. split; now apply rev_lookup.
  - intros o [-> | ->]; unfold after; cbn [call].
    + rewrite show_balance_run, Ha. cbn. now rewrite show_balance_run, Ha.
    + rewrite view_history_run, Ha. cbn. now rewrite view_history_run, Ha.
Qed.

(** ** Frames *)

Lemma mutation_keeps w w' :
  numbered w -> mutation w w' ->
  forall k a, accounts (data w) !! k = Some a ->
    exists a', accounts (data w') !! k = Some a' /\
      name a' = name a /\ pin a' = pin a /\ history a `prefix_of` history a'.
Proof.
  intros Hn Hm k b Hk. destruct Hm as [nm p now|acc a amt now Ha|acc a amt now Ha
                                      |acc to_acc a t amt now_out now_in Hne Ha Ht]; cbn.
  - rewrite lookup_insert_ne by (intros <-; rewrite numbered_unused in Hk; [discriminate|assumption]).
    exists b. auto.
  - destruct (decide (acc = k)) as [->|Hne].
    + rewrite lookup_insert_eq. replace b with a by congruence.
      eexists. split; [reflexivity|]. cbn. split_and!; auto. now apply prefix_app_r.
    + rewrite lookup_insert_ne by assumption. exists b. auto.
  - destruct (decide (acc = k)) as [->|Hne].
    + rewrite lookup_insert_eq. replace b with a by congruence.
      eexists. split; [reflexivity|]. cbn. split_and!; auto. now apply prefix_app_r.
    + rewrite lookup_insert_ne by assumption. exists b. auto.
  - destruct (decide (to_acc = k)) as [->|Hnt].
    + rewrite lookup_insert_eq. replace b with t by congruence.
      eexists. split; [reflexivity|]. cbn. split_and!; auto. now apply prefix_app_r.
    + rewrite lookup_insert_ne by assumption. destruct (decide (acc = k)) as [->|Hna].
      * rewrite lookup_insert_eq. replace b with a by congruence.
        eexists. split; [reflexivity|]. cbn. split_and!; auto. now apply prefix_app_r.
      * rewrite lookup_insert_ne by assumption. exists b. auto.
Qed.

(** C10. In a reachable world every call keeps every existing account, with
    its name and PIN, and only appends to its history: the history before is
    a prefix of the history after.  A deposit or a withdrawal leaves the
    counter and every account but its own as they were, a transfer the counter
    and every account but the two it names; creating an account leaves every
    existing account as it was; authentication and the two reads change
    nothing. *)
Theorem effects_are_framed o w :
  reachable w ->
  (forall k a, accounts (data w) !! k = Some a ->
     exists a', accounts (data (after o w)) !! k = Some a' /\
       name a' = name a /\ pin a' = pin a /\ history a `prefix_of` history a') /\
  match o with
  | Deposit acc _ _ | Withdraw acc _ _ =>
      next_acc (data (after o w)) = next_acc (data w) /\
      forall k, k ≠ acc -> accounts (data (after o w)) !! k = accounts (data w) !! k
  | Transfer acc to_acc _ _ _ =>
      next_acc (data (after o w)) = next_acc (data w) /\
      forall k, k ≠ acc -> k ≠ to_acc ->
        accounts (data (after o w)) !! k = accounts (data w) !! k
  | CreateAccount _ _ _ =>
      forall k a, accounts (data w) !! k = Some a ->
        accounts (data (after o w)) !! k = Some a
  | Authenticate _ _ | ShowBalance _ | ViewHistory _ => after o w = w
  end.
Proof.
  intros Hw. pose proof (reachable_numbered w Hw) as Hn. split.
  - intros k a Hk. destruct (call_cases o w) as [[_ ->]|[_ Hm]].
    + exists a. auto.
    + eapply mutation_keeps; eauto.
  - unfold after.
    destruct o as [nm answers now|acc p|acc|acc typed now|acc typed now
                  |acc to_acc typed now_out now_in|acc]; cbn [call].
    + rewrite create_account_run. intros k a Hk.
      destruct (String.eqb nm ""); [assumption|].
      destruct (choose_pin answers); [|assumption]. cbn.
      rewrite lookup_insert_ne; [assumption|].
      intros <-. rewrite numbered_unused in Hk; [discriminate|assumption].
    + rewrite authenticate_run.
      destruct (accounts (data w) !! acc); [destruct (negb _)|]; reflexivity.
    + rewrite show_balance_run. destruct (accounts (data w) !! acc); reflexivity.
    + rewrite deposit_run. destruct typed as [amt|]; [|now split].
      destruct (amt <=? 0)%float; [now split|].
      destruct (accounts (data w) !! acc) as [a|]; [|now split].
      cbn. split; [reflexivity|]. intros k Hk. now rewrite lookup_insert_ne.
    + rewrite withdraw_run. destruct typed as [amt|]; [|now split].
      destruct (amt <=? 0)%float; [now split|].
      destruct (accounts (data w) !! acc) as [a|]; [|now split].
      destruct (balance a <? amt)%float; [now split|].
      cbn. split; [reflexivity|]. intros k Hk. now rewrite lookup_insert_ne.
    + rewrite transfer_run. destruct (String.eqb to_acc acc); [now split|].
      destruct (accounts (data w) !! to_acc) as [t|]; [|now split].
      destruct typed as [amt|]; [|now split].
      destruct (amt <=? 0)%float; [now split|].
      destruct (accounts (data w) !! acc) as [a|]; [|now split].
      destruct (balance a <? amt)%float; [now split|].
      cbn. split; [reflexivity|]. intros k Hk1 Hk2. now rewrite !lookup_insert_ne.
    + rewrite view_history_run. destruct (accounts (data w) !! acc); reflexivity.
Qed.

(** ** Balances are never below zero *)


Lemma solvent_mutation w w' : solvent w -> mutation w w' -> solvent w'.
Proof.
  intros Hs Hm k b. destruct Hm as [nm p now|acc a amt now Ha Hp|acc a amt now Ha Hp Hb
                                   |acc to_acc a t amt now_out now_in Hne Ha Ht Hp Hb]; cbn.
  - rewrite lookup_insert. case_decide; [intros [= <-]; reflexivity|apply Hs].
  - rewrite lookup_insert. case_decide; [intros [= <-]; cbn|apply Hs].
    apply add_not_below_zero; eauto.
  - rewrite lookup_insert. case_decide; [intros [= <-]; cbn|apply Hs].
    apply sub_not_below_zero; eauto.
  - rewrite !lookup_insert. repeat case_decide; try (intros [= <-]; cbn); [| |apply Hs].
    + apply add_not_below_zero; eauto.
    + apply sub_not_below_zero; eauto.
Qed.

Lemma reachable_solvent w : reachable w -> solvent w.
Proof.
  apply reachable_ind_mutation.
  - intros k a. cbn. now rewrite lookup_empty.
  - intros ? ? _. apply solvent_mutation.
Qed.



(** The test [amt <= 0] lets NaN through: a deposit of [float("nan")] is
    accepted and leaves a balance that is NaN.  The message "Amount must be
    positive." shows what the test is meant to admit; the properties of the
    balances and of [withdraw] below leave such amounts out. *)
Lemma nan_deposit_is_accepted :
  (nan <=? 0)%float = false /\
  balance_of poisoned "1001" = nan /\ (0 <=? balance_of poisoned "1001")%float = false.
Proof. vm_compute. repeat split. Qed.



(** ** Histories *)

Lemma signed_sum_snoc h e : signed_sum (h ++ [e]) = (signed_sum h + signed_amount e)%float.
Proof. unfold signed_sum. now rewrite fold_left_app. Qed.

Lemma replayable_mutation w w' : replayable w -> mutation w w' -> replayable w'.
Proof.
  intros Hr Hm k b. destruct Hm as [nm p now|acc a amt now Ha Hp|acc a amt now Ha Hp Hb
                                   |acc to_acc a t amt now_out now_in Hne Ha Ht Hp Hb];
    cbn [saved data accounts].
  - rewrite lookup_insert. case_decide; [intros [= <-]; reflexivity|apply Hr].
  - rewrite lookup_insert. case_decide; [intros [= <-]|apply Hr].
    unfold posted; cbn [history balance].
    rewrite signed_sum_snoc, (Hr _ _ Ha). reflexivity.
  - rewrite lookup_insert. case_decide; [intros [= <-]|apply Hr].
    unfold posted; cbn [history balance].
    rewrite signed_sum_snoc, (Hr _ _ Ha), sub_is_add_opp. reflexivity.
  - rewrite !lookup_insert. repeat case_decide; try intros [= <-]; [| |apply Hr].
    + unfold posted; cbn [history balance].
      rewrite signed_sum_snoc, (Hr _ _ Ht). reflexivity.
    + unfold posted; cbn [history balance].
      rewrite signed_sum_snoc, (Hr _ _ Ha), sub_is_add_opp. reflexivity.
Qed.

Lemma reachable_replayable w : reachable w -> replayable w.
Proof.
  apply reachable_ind_mutation.
  - intros k a. cbn. now rewrite lookup_empty.
  - intros ? ? _. apply replayable_mutation.
Qed.

Lemma eqb_decide (x y : string) : String.eqb x y = bool_decide (x = y).
Proof.
  destruct (String.eqb_spec x y).
  - now rewrite bool_decide_eq_true_2.
  - now rewrite bool_decide_eq_false_2.
Qed.

(** One call lengthens the history of [k] by one when it touches [k], and not
    at all otherwise. *)
Lemma history_size_call k o w :
  numbered w ->
  history_size (after o w) k = ((if touches k o w then 1 else 0) + history_size w k)%nat.
Proof.
  intros Hn. unfold touches, after, history_size.
  destruct o as [nm answers now|acc p|acc|acc typed now|acc typed now
                |acc to_acc typed now_out now_in|acc]; cbn [call].
  - rewrite create_account_run. destruct (String.eqb nm ""); [reflexivity|].
    destruct (choose_pin answers); [|reflexivity]. cbn.
    rewrite lookup_insert. case_decide as Hk; [|reflexivity].
    subst k. now rewrite (numbered_unused w Hn).
  - rewrite authenticate_run.
    destruct (accounts (data w) !! acc); [destruct (negb _)|]; reflexivity.
  - rewrite show_balance_run. destruct (accounts (data w) !! acc); reflexivity.
  - rewrite deposit_run. destruct typed as [amt|]; [|reflexivity].
    destruct (amt <=? 0)%float; [reflexivity|].
    destruct (accounts (data w) !! acc) as [a|] eqn:Ha; [|reflexivity]. cbn.
    rewrite lookup_insert, eqb_decide. case_decide as Hk.
    + subst k. rewrite bool_decide_eq_true_2, Ha by reflexivity. cbn.
      rewrite length_app. cbn. lia.
    + now rewrite bool_decide_eq_false_2.
  - rewrite withdraw_run. destruct typed as [amt|]; [|reflexivity].
    destruct (amt <=? 0)%float; [reflexivity|].
    destruct (accounts (data w) !! acc) as [a|] eqn:Ha; [|reflexivity].
    destruct (balance a <? amt)%float; [reflexivity|]. cbn.
    rewrite lookup_insert, eqb_decide. case_decide as Hk.
    + subst k. rewrite bool_decide_eq_true_2, Ha by reflexivity. cbn.
      rewrite length_app. cbn. lia.
    + now rewrite bool_decide_eq_false_2.
  - rewrite transfer_run. destruct (String.eqb_spec to_acc acc) as [|Hne]; [reflexivity|].
    destruct (accounts (data w) !! to_acc) as [t|] eqn:Ht; [|reflexivity].
    destruct typed as [amt|]; [|reflexivity].
    destruct (amt <=? 0)%float; [reflexivity|].
    destruct (accounts (data w) !! acc) as [a|] eqn:Ha; [|reflexivity].
    destruct (balance a <? amt)%float; [reflexivity|]. cbn.
    rewrite !lookup_insert, !eqb_decide. case_decide as Hk1.
    + subst k. rewrite (bool_decide_eq_true_2 (to_acc = to_acc)), orb_true_r, Ht by reflexivity.
      cbn. rewrite length_app. cbn. lia.
    + rewrite (bool_decide_eq_false_2 (to_acc = k)), orb_false_r by assumption.
      case_decide as Hk2.
      * subst k. rewrite bool_decide_eq_true_2, Ha by reflexivity. cbn.
        rewrite length_app. cbn. lia.
      * now rewrite bool_decide_eq_false_2.
  - rewrite view_history_run. destruct (accounts (data w) !! acc); reflexivity.
Qed.

Lemma numbered_after o w : numbered w -> numbered (after o w).
Proof.
  intros Hn. destruct (call_cases o w) as [[_ ->]|[_ Hm]]; [assumption|].
  eapply numbered_mutation; eauto.
Qed.

Lemma history_size_exec k ops :
  forall w, numbered w ->
    history_size (exec ops w) k = (operations_on k ops w + history_size w k)%nat.
Proof.
  induction ops as [|o ops IH]; intros w Hn; [reflexivity|].
  rewrite exec_cons, IH by now apply numbered_after.
  cbn [operations_on]. rewrite history_size_call by assumption. lia.
Qed.

(** C4 fails as stated, because the balances are binary64 numbers.  After
    1e16 was paid in and out again and then 0.1 and 0.2 paid in, the balance
    is 0.30000000000000004: the sum 0.1 + 0.2 was rounded.  The history has
    its five entries, but the exact signed sum of their amounts is not the
    balance, and the formula of the specification, the sum of the credits
    less the sum of the debits, gives 0.0 in binary64. *)
Lemma history_sum_is_rounded :
  reachable churned /\
  balance_of churned "1001" = 0.30000000000000004%float /\
  exists a, accounts (data churned) !! "1001" = Some a /\
    length (history a) = 5%nat /\
    exact_signed_sum (history a) ≠ units (balance a) /\
    grouped_sum (history a) = 0%float /\
    (grouped_sum (history a) =? balance a)%float = false.
Proof.
  split; [apply reachable_exec|]. split; [vm_compute; reflexivity|].
  eexists. split; [vm_compute; reflexivity|].
  split_and!; try (vm_compute; reflexivity).
  vm_compute. discriminate.
Qed.

(** C4, as the program has it.  In a session started on the fresh store, the
    history of an account has one entry more than the number of successful
    deposits, withdrawals and transfers of the session that involve the
    account (none of them can precede its creation), and the signed sum of
    the amounts of its history, added up in binary64 in the order of the
    entries, starting from 0.0, is its balance. *)
Theorem history_complete ops k a :
  accounts (data (exec ops fresh)) !! k = Some a ->
  length (history a) = (operations_on k ops fresh + 1)%nat /\
  signed_sum (history a) = balance a.
Proof.
  intros Ha. split.
  - pose proof (history_size_exec k ops fresh numbered_fresh) as Hs.
    unfold history_size in Hs. rewrite Ha in Hs. cbn in Hs. exact Hs.
  - exact (reachable_replayable _ (reachable_exec ops) k a Ha).
Qed.

(** ** The total of the balances *)

Lemma total_insert_new (m : gmap string account) k a :
  m !! k = None -> total (<[k := a]> m) = units (balance a) + total m.
Proof.
  intros Hk. unfold total. rewrite map_fold_insert_L; [reflexivity| |assumption].
  intros. lia.
Qed.

Lemma total_delete (m : gmap string account) k a :
  m !! k = Some a -> total m = units (balance a) + total (delete k m).
Proof.
  intros Hk. unfold total. rewrite (map_fold_delete_L _ _ k a m); [reflexivity| |assumption].
  intros. lia.
Qed.

Lemma total_insert (m : gmap string account) k a a' :
  m !! k = Some a ->
  total (<[k := a']> m) = total m - units (balance a) + units (balance a').
Proof.
  intros Hk. rewrite <- (insert_delete_eq m k a').
  rewrite total_insert_new by apply lookup_delete_eq.
  rewrite (total_delete m k a Hk). lia.
Qed.

(** One call whose balance updates are exact changes the total by what it
    deposits or withdraws. *)
Lemma total_call o w :
  numbered w -> exact_call o w = true ->
  total (accounts (data (after o w))) = total (accounts (data w)) + net_deposit o w.
Proof.
  intros Hn. unfold exact_call, net_deposit, after, balance_of.
  destruct o as [nm answers now|acc p|acc|acc typed now|acc typed now
                |acc to_acc typed now_out now_in|acc]; cbn [call].
  - intros _. rewrite create_account_run. destruct (String.eqb nm ""); [cbn; lia|].
    destruct (choose_pin answers); [|cbn; lia]. cbn [fst snd saved data accounts].
    rewrite total_insert_new by now apply numbered_unused. cbn. lia.
  - intros _. rewrite authenticate_run.
    destruct (accounts (data w) !! acc); [destruct (negb _)|]; cbn; lia.
  - intros _. rewrite show_balance_run. destruct (accounts (data w) !! acc); cbn; lia.
  - rewrite deposit_run. destruct typed as [amt|]; [|cbn; lia].
    destruct (amt <=? 0)%float; [cbn; lia|].
    destruct (accounts (data w) !! acc) as [a|] eqn:Ha; [|cbn; lia].
    cbn [fst snd saved data accounts]. intros He.
    rewrite (total_insert _ _ a) by assumption. cbn [posted balance].
    rewrite (exact_add_units _ _ He). lia.
  - rewrite withdraw_run. destruct typed as [amt|]; [|cbn; lia].
    destruct (amt <=? 0)%float; [cbn; lia|].
    destruct (accounts (data w) !! acc) as [a|] eqn:Ha; [|cbn; lia].
    destruct (balance a <? amt)%float; [cbn; lia|].
    cbn [fst snd saved data accounts]. intros He.
    rewrite (total_insert _ _ a) by assumption. cbn [posted balance].
    rewrite (exact_sub_units _ _ He). lia.
  - rewrite transfer_run. destruct (String.eqb_spec to_acc acc) as [|Hne]; [cbn; lia|].
    destruct (accounts (data w) !! to_acc) as [t|] eqn:Ht; [|cbn; lia].
    destruct typed as [amt|]; [|cbn; lia].
    destruct (amt <=? 0)%float; [cbn; lia|].
    destruct (accounts (data w) !! acc) as [a|] eqn:Ha; [|cbn; lia].
    destruct (balance a <? amt)%float; [cbn; lia|].
    cbn [fst snd saved data accounts]. intros He.
    apply andb_true_iff in He as [Hs Hd].
    rewrite (total_insert _ _ t) by now rewrite lookup_insert_ne.
    rewrite (total_insert _ _ a) by assumption. cbn [posted balance].
    rewrite (exact_sub_units _ _ Hs), (exact_add_units _ _ Hd). lia.
  - intros _. rewrite view_history_run. destruct (accounts (data w) !! acc); cbn; lia.
Qed.

Lemma total_exec ops :
  forall w, numbered w -> exact_run ops w = true ->
    total (accounts (data (exec ops w))) = total (accounts (data w)) + net_deposits ops w.
Proof.
  induction ops as [|o ops IH]; intros w Hn He; [cbn; lia|].
  cbn [exact_run] in He. apply andb_true_iff in He as [Ho Hr].
  rewrite exec_cons, IH by (try apply numbered_after; assumption).
  cbn [net_deposits]. rewrite total_call by assumption. lia.
Qed.

(** C3 fails as stated, because the balances are binary64 numbers: with 0.1
    and 0.2 in two accounts, the transfer of 0.05 succeeds, deposits and
    withdraws nothing, and changes the exact total of the balances; the
    binary64 sum of the two balances changes too, from 0.30000000000000004
    to 0.3. *)
Lemma transfer_changes_total :
  reachable dimes /\
  (call five_cents dimes).1 = Return (Transferred 0.05%float "1002") /\
  net_deposit five_cents dimes = 0 /\
  total (accounts (data (after five_cents dimes))) ≠ total (accounts (data dimes)) /\
  (balance_of dimes "1001" + balance_of dimes "1002")%float = 0.30000000000000004%float /\
  (balance_of (after five_cents dimes) "1001"
   + balance_of (after five_cents dimes) "1002")%float = 0.3%float.
Proof.
  split_and!; try reflexivity.
  - apply reachable_exec.
  - vm_compute. discriminate.
Qed.

(** C3, as the program has it.  Over any session continued from a reachable
    world in which every balance update is exact (no binary64 sum or
    difference is rounded), the total of the balances changes by the sum of
    the amounts deposited less the sum of the amounts withdrawn; transfers
    and all other calls contribute nothing. *)
Theorem conservation_when_exact ops w :
  reachable w -> exact_run ops w = true ->
  total (accounts (data (exec ops w))) = total (accounts (data w)) + net_deposits ops w.
Proof.
  intros Hw He. apply total_exec; [now apply reachable_numbered|assumption].
Qed.

(** ** The properties on the scenario of the specification *)

Lemma transfer_failure_leaves_world_witness :
  succeeded (transfer "1001" "1002" (Some 900%float) "t6" "t7" scenario).1 = false /\
  (transfer "1001" "1002" (Some 900%float) "t6" "t7" scenario).2 = scenario.
Proof.
  split; [vm_compute; reflexivity|].
  apply (transfer_failure_leaves_world "1001" "1002" (Some 900%float) "t6" "t7" scenario).
  vm_compute; reflexivity.
Defined.


Lemma conservation_when_exact_witness :
  reachable fresh /\ exact_run scenario_calls fresh = true /\
  total (accounts (data (exec scenario_calls fresh)))
    = total (accounts (data fresh)) + net_deposits scenario_calls fresh.
Proof.
  split; [apply reachable_fresh|]. split; [vm_compute; reflexivity|].
  apply conservation_when_exact; [apply reachable_fresh|vm_compute; reflexivity].
Defined.

Lemma history_complete_witness :
  exists a, accounts (data (exec scenario_calls fresh)) !! "1001" = Some a /\
    length (history a) = (operations_on "1001" scenario_calls fresh + 1)%nat /\
    signed_sum (history a) = balance a.
Proof.
  eexists. split; [vm_compute; reflexivity|].
  apply (history_complete scenario_calls "1001"). vm_compute; reflexivity.
Defined.

Lemma withdraw_behaviour_witness :
  exists a, accounts (data scenario) !! "1001" = Some a /\
    (300 =? balance a)%float = true /\
    (withdraw "1001" (Some 300%float) "t6" scenario).1 = Return (Withdrew 300%float) /\
    balance_of (withdraw "1001" (Some 300%float) "t6" scenario).2 "1001" = 0%float.
Proof.
  assert (exists a, accounts (data scenario) !! "1001" = Some a /\ balance a = 300%float)
    as (a & Ha & Hb) by (eexists; split; vm_compute; reflexivity).
  exists a. split; [exact Ha|]. split; [rewrite Hb; reflexivity|].
  destruct (withdraw_behaviour "1001" a (Some 300%float) "t6" scenario Ha)
    as (_ & _ & _ & _ & _ & Hall).
  destruct (Hall 300%float) as [Hmsg Hzero];
    [reflexivity|reflexivity|rewrite Hb; reflexivity|].
  split; [exact Hmsg|]. apply Hzero. reflexivity.
Defined.

Lemma transfer_success_witness :
  transfer "1001" "1002" (Some 200%float) "t4" "t5" before_transfer
    = (Return (Transferred 200%float "1002"), scenario) /\
  exists a t,
    accounts (data before_transfer) !! "1001" = Some a /\
    accounts (data before_transfer) !! "1002" = Some t /\
    accounts (data scenario) !! "1001" =
      Some (Account (name a) (pin a) (balance a - 200)
              (history a ++ [Entry "t4" "transfer_out" (PyFloat 200%float) "To 1002"])) /\
    accounts (data scenario) !! "1002" =
      Some (Account (name t) (pin t) (balance t + 200)
              (history t ++ [Entry "t5" "transfer_in" (PyFloat 200%float) "From 1001"])).
Proof.
  assert (transfer "1001" "1002" (Some 200%float) "t4" "t5" before_transfer
          = (Return (Transferred 200%float "1002"), scenario)) as Hrun
    by (vm_compute; reflexivity).
  split; [exact Hrun|].
  destruct (transfer_success _ _ _ _ _ _ _ _ _ Hrun)
    as (a & t & _ & _ & _ & Ha & Ht & _ & _ & Ha' & Ht' & _).
  exists a, t. auto.
Defined.

Lemma transfer_rejections_witness :
  is_Some (accounts (data scenario) !! "1001") /\
  transfer "1001" "1001" (Some 50%float) "t6" "t7" scenario = (Return SameAccount, scenario) /\
  transfer "1001" "4242" (Some 50%float) "t6" "t7" scenario
    = (Return RecipientNotFound, scenario) /\
  error_of (transfer "1001" "1002" (Some 900%float) "t6" "t7" scenario).1
    = error_of (withdraw "1001" (Some 900%float) "t8" scenario).1.
Proof.
  assert (is_Some (accounts (data scenario) !! "1001")) as Hsrc
    by (eexists; vm_compute; reflexivity).
  split; [exact Hsrc|]. split_and!.
  - apply (transfer_rejections "1001" "1001" (Some 50%float) "t6" "t7" "t8" scenario).
    reflexivity.
  - apply (transfer_rejections "1001" "4242" (Some 50%float) "t6" "t7" "t8" scenario).
    + exact Hsrc.
    + vm_compute; reflexivity.
  - apply (transfer_rejections "1001" "1002" (Some 900%float) "t6" "t7" "t8" scenario).
    + discriminate.
    + eexists; vm_compute; reflexivity.
Defined.

Lemma create_account_numbers_witness :
  reachable scenario /\
  create_account "" ["1234"; "1234"] "t6" scenario = (Return NameEmpty, scenario) /\
  accounts (data scenario) !! "1003" = None /\
  (create_account "Mina" ["1234"; "1234"] "t6" scenario).1 = Return (AccountCreated "1003").
Proof.
  assert (reachable scenario) as Hw by apply reachable_exec.
  split; [exact Hw|].
  destruct (create_account_numbers "" ["1234"; "1234"] "t6" scenario Hw) as (Hempty & _).
  destruct (create_account_numbers "Mina" ["1234"; "1234"] "t6" scenario Hw)
    as (_ & Hnamed & _).
  split; [apply Hempty; reflexivity|].
  destruct (Hnamed ltac:(discriminate) "1234" eq_refl) as [Hunused Hrun].
  split; [exact Hunused|]. rewrite Hrun. reflexivity.
Defined.

Lemma reads_repeatable_witness :
  exists a, accounts (data scenario) !! "1001" = Some a /\
    view_history "1001" scenario = (Return (HistoryLines (rev (history a))), scenario) /\
    call (ViewHistory "1001") (after (ViewHistory "1001") scenario)
      = call (ViewHistory "1001") scenario.
Proof.
  assert (exists a, accounts (data scenario) !! "1001" = Some a) as (a & Ha)
    by (eexists; vm_compute; reflexivity).
  exists a. split; [exact Ha|].
  destruct (reads_repeatable "1001" a scenario Ha) as (Hview & _ & _ & _ & Htwice).
  split; [exact Hview|]. apply Htwice. now right.
Defined.

Lemma effects_are_framed_witness :
  reachable before_transfer /\
  next_acc (data (after (Deposit "1001" (Some 25%float) "t6") before_transfer))
    = next_acc (data before_transfer) /\
  accounts (data (after (Deposit "1001" (Some 25%float) "t6") before_transfer)) !! "1002"
    = accounts (data before_transfer) !! "1002".
Proof.
  assert (reachable before_transfer) as Hw by apply reachable_exec.
  split; [exact Hw|].
  destruct (effects_are_framed (Deposit "1001" (Some 25%float) "t6") before_transfer Hw)
    as (_ & Hcounter & Hothers).
  split; [exact Hcounter|]. apply Hothers. discriminate.
Defined.

(** * Further properties of the functions *)

(** ** Deposits *)

(** X1. [deposit] rejects a text that is no float and an amount [<= 0] (zero
    and negative zero included) and then changes nothing; for an account that
    is not in the store it raises [KeyError] and changes nothing, the file
    included; otherwise it adds the amount to the balance, appends one
    [deposit] entry with the note "Cash deposit", leaves every other account
    and the counter as they were, and writes the file. *)
Theorem deposit_behaviour acc typed now w :
  (typed = None -> deposit acc typed now w = (Return InvalidAmount, w)) /\
  (forall amt, typed = Some amt -> (amt <=? 0)%float = true ->
     deposit acc typed now w = (Return AmountNotPositive, w)) /\
  deposit acc (Some 0%float) now w = (Return AmountNotPositive, w) /\
  deposit acc (Some (-0)%float) now w = (Return AmountNotPositive, w) /\
  (forall amt, typed = Some amt -> (amt <=? 0)%float = false ->
     accounts (data w) !! acc = None ->
     deposit acc typed now w = (Raise (KeyError acc), w)) /\
  (forall amt a, typed = Some amt -> (amt <=? 0)%float = false ->
     accounts (data w) !! acc = Some a ->
     (deposit acc typed now w).1 = Return (Deposited amt) /\
     accounts (data (deposit acc typed now w).2) !! acc =
       Some (Account (name a) (pin a) (balance a + amt)
               (history a ++ [Entry now "deposit" (PyFloat amt) "Cash deposit"])) /\
     (forall k, k ≠ acc ->
        accounts (data (deposit acc typed now w).2) !! k = accounts (data w) !! k) /\
     next_acc (data (deposit acc typed now w).2) = next_acc (data w) /\
     file (deposit acc typed now w).2 = Some (data (deposit acc typed now w).2)).
Proof.
  split_and!.
  - intros ->. reflexivity.
  - intros amt -> Hp. now rewrite deposit_run, Hp.
  - reflexivity.
  - reflexivity.
  - intros amt -> Hp Hk. now rewrite deposit_run, Hp, Hk.
  - intros amt a -> Hp Hk. rewrite deposit_run, Hp, Hk. cbn.
    rewrite lookup_insert_eq. split_and!; try reflexivity.
    intros k Hne. now rewrite lookup_insert_ne.
Qed.

(** ** Logging in *)

(** X2. [authenticate] lets in exactly the holders of the PIN: it returns the
    account number if and only if the account exists and the typed PIN is the
    stored one; it reports an unknown account exactly when the number is not
    in the store, and an invalid PIN exactly when the account exists with
    another PIN.  It never changes anything. *)
Theorem authenticate_accepts_exactly acc pin_typed w :
  ((authenticate acc pin_typed w).1 = Return (LoggedIn acc) <->
     exists a, accounts (data w) !! acc = Some a /\ pin a = pin_typed) /\
  ((authenticate acc pin_typed w).1 = Return AccountNotFound <->
     accounts (data w) !! acc = None) /\
  ((authenticate acc pin_typed w).1 = Return InvalidPin <->
     exists a, accounts (data w) !! acc = Some a /\ pin a ≠ pin_typed) /\
  (authenticate acc pin_typed w).2 = w.
Proof.
  rewrite authenticate_run.
  destruct (accounts (data w) !! acc) as [a|] eqn:Ha.
  - destruct (String.eqb_spec (pin a) pin_typed) as [He|Hne]; cbn.
    + split_and!; try reflexivity; split; try discriminate; eauto.
      intros (b & [= <-] & Hb). contradiction.
    + split_and!; try reflexivity; split; try discriminate; eauto.
      intros (b & [= <-] & Hb). contradiction.
  - cbn. split_and!; try reflexivity; split; try discriminate; auto.
    all: intros (b & Hb & _); discriminate.
Qed.

Lemma exec_keeps_account ops :
  forall w k a, numbered w -> accounts (data w) !! k = Some a ->
    exists a', accounts (data (exec ops w)) !! k = Some a' /\
      name a' = name a /\ pin a' = pin a.
Proof.
  induction ops as [|o ops IH]; intros w k a Hn Ha; [exists a; auto|].
  rewrite exec_cons.
  assert (exists a1, accounts (data (after o w)) !! k = Some a1 /\
                     name a1 = name a /\ pin a1 = pin a) as (a1 & Ha1 & Hn1 & Hp1).
  { destruct (call_cases o w) as [[_ ->]|[_ Hm]]; [exists a; auto|].
    destruct (mutation_keeps w _ Hn Hm k a Ha) as (a1 & ? & ? & ? & _). eauto. }
  destruct (IH (after o w) k a1 (numbered_after o w Hn) Ha1) as (a' & Ha' & Hn' & Hp').
  exists a'. split; [assumption|]. split; congruence.
Qed.

(** X3. The PIN chosen when an account is created opens it: in a reachable
    world, after [create_account] has issued a number, [authenticate] with
    that number and the chosen PIN succeeds, and it still succeeds after any
    further sequence of calls; no call changes a PIN or removes an account. *)
Theorem chosen_pin_opens_account name answers now pin ops w :
  reachable w -> name ≠ "" -> choose_pin answers = Some pin ->
  (authenticate (pretty (next_acc (data w))) pin
     (exec ops (after (CreateAccount name answers now) w))).1
  = Return (LoggedIn (pretty (next_acc (data w)))).
Proof.
  intros Hw Hne Hp.
  assert (reachable (after (CreateAccount name answers now) w)) as Hw'
    by now apply reachable_call.
  assert (accounts (data (after (CreateAccount name answers now) w))
            !! pretty (next_acc (data w)) = Some (opened name pin now)) as Hk.
  { unfold after. cbn [call]. rewrite create_account_run, Hp.
    destruct (String.eqb_spec name ""); [contradiction|]. cbn.
    apply lookup_insert_eq. }
  destruct (exec_keeps_account ops _ _ _ (reachable_numbered _ Hw') Hk)
    as (a' & Ha' & _ & Hpin).
  rewrite authenticate_run, Ha'. cbn in Hpin. rewrite Hpin, String.eqb_refl.
  reflexivity.
Qed.

(** ** The PIN prompt *)

Lemma choose_pin_sound_bounded (n : nat) :
  forall answers pin, (length answers <= n)%nat -> choose_pin answers = Some pin ->
    valid_pin pin = true /\ exists pre post, answers = pre ++ pin :: pin :: post.
Proof.
  induction n as [|n IH]; intros answers p Hlen Hc.
  - destruct answers; [discriminate|cbn in Hlen; lia].
  - destruct answers as [|x rest]; [discriminate|]. cbn in Hlen. cbn [choose_pin] in Hc.
    fold (valid_pin x) in Hc. destruct (valid_pin x) eqn:Hv.
    + destruct rest as [|c rest']; [discriminate|].
      destruct (String.eqb_spec x c) as [<-|Hne].
      * injection Hc as <-. split; [assumption|]. now exists [], rest'.
      * cbn in Hlen. destruct (IH rest' p ltac:(lia) Hc) as (Hp & pre & post & ->).
        split; [assumption|]. now exists (x :: c :: pre), post.
    + destruct (IH rest p ltac:(lia) Hc) as (Hp & pre & post & ->).
      split; [assumption|]. now exists (x :: pre), post.
Qed.

(** X4. The PIN that the prompt loop of [create_account] settles on passed
    the test [len(pin) == 4 and pin.isdigit()], so it has exactly four
    characters, each with a digit value in Unicode (the ASCII digits, and
    also superscript or Arabic-Indic digits), and it was typed twice in a
    row.  A malformed answer is skipped, a well-formed answer followed by a
    different confirmation is dropped with it, and the loop ends on
    [EOFError] when fewer than two answers are left. *)
Theorem choose_pin_sound answers :
  (forall pin, choose_pin answers = Some pin ->
     len pin = 4%nat /\ isdigit pin = true /\
     Forall (fun c => digit_char c = true) (code_points pin) /\
     exists pre post, answers = pre ++ pin :: pin :: post) /\
  (forall p rest, answers = p :: rest -> valid_pin p = false ->
     choose_pin answers = choose_pin rest) /\
  (forall p c rest, answers = p :: c :: rest -> valid_pin p = true ->
     choose_pin answers = if String.eqb p c then Some p else choose_pin rest) /\
  ((length answers < 2)%nat -> choose_pin answers = None).
Proof.
  split_and!.
  - intros p Hc.
    destruct (choose_pin_sound_bounded (length answers) answers p (le_n _) Hc) as [Hv He].
    unfold valid_pin in Hv. apply andb_true_iff in Hv as [Hl Hd].
    apply Z.eqb_eq in Hl. split; [lia|]. split; [assumption|].
    split; [|assumption]. unfold isdigit in Hd.
    destruct (code_points p) as [|c cs]; [discriminate|].
    apply List.Forall_forall. intros x Hx.
    exact (proj1 (forallb_forall _ _) Hd x Hx).
  - intros p rest -> Hv. cbn [choose_pin]. fold (valid_pin p). now rewrite Hv.
  - intros p c rest -> Hv. cbn [choose_pin]. fold (valid_pin p). now rewrite Hv.
  - destruct answers as [|p [|c rest]]; cbn [length]; intros Hl; try lia; [reflexivity|].
    cbn [choose_pin]. now destruct (_ && _).
Qed.

(** ** What the store holds *)

(** Where the accounts of the world after a call come from. *)
Lemma after_account_cases o w k a' :
  accounts (data (after o w)) !! k = Some a' ->
  accounts (data w) !! k = Some a' \/
  (exists nm p now, nm ≠ "" /\ valid_pin p = true /\ a' = opened nm p now) \/
  (exists a bal e, accounts (data w) !! k = Some a /\ is_movement e = true /\
                   a' = posted a bal e).
Proof.
  unfold after.
  destruct o as [nm answers now|acc p|acc|acc typed now|acc typed now
                |acc to_acc typed now_out now_in|acc]; cbn [call].
  - rewrite create_account_run. destruct (String.eqb_spec nm "") as [|Hne]; [now left|].
    destruct (choose_pin answers) as [p|] eqn:Hp; [|now left]. cbn.
    rewrite lookup_insert. case_decide; [|now left]. intros [= <-]. right; left.
    exists nm, p, now. split_and!; auto.
    now apply (choose_pin_sound_bounded (length answers) answers p (le_n _)).
  - rewrite authenticate_run.
    destruct (accounts (data w) !! acc); [destruct (negb _)|]; now left.
  - rewrite show_balance_run. destruct (accounts (data w) !! acc); now left.
  - rewrite deposit_run. destruct typed as [amt|]; [|now left].
    destruct (amt <=? 0)%float eqn:Hp; [now left|].
    destruct (accounts (data w) !! acc) as [a|] eqn:Ha; [|now left]. cbn.
    rewrite lookup_insert. case_decide as Hk; [|now left]. subst k. intros [= <-].
    right; right. eexists _, _, _. split_and!; [eassumption| |reflexivity].
    cbn. now rewrite Hp.
  - rewrite withdraw_run. destruct typed as [amt|]; [|now left].
    destruct (amt <=? 0)%float eqn:Hp; [now left|].
    destruct (accounts (data w) !! acc) as [a|] eqn:Ha; [|now left].
    destruct (balance a <? amt)%float; [now left|]. cbn.
    rewrite lookup_insert. case_decide as Hk; [|now left]. subst k. intros [= <-].
    right; right. eexists _, _, _. split_and!; [eassumption| |reflexivity].
    cbn. now rewrite Hp.
  - rewrite transfer_run. destruct (String.eqb_spec to_acc acc) as [|Hne]; [now left|].
    destruct (accounts (data w) !! to_acc) as [t|] eqn:Ht; [|now left].
    destruct typed as [amt|]; [|now left].
    destruct (amt <=? 0)%float eqn:Hp; [now left|].
    destruct (accounts (data w) !! acc) as [a|] eqn:Ha; [|now left].
    destruct (balance a <? amt)%float; [now left|]. cbn.
    rewrite !lookup_insert. case_decide as Hk1.
    + subst k. intros [= <-]. right; right.
      eexists _, _, _. split_and!; [eassumption| |reflexivity]. cbn. now rewrite Hp.
    + case_decide as Hk2; [|now left]. subst k. intros [= <-]. right; right.
      eexists _, _, _. split_and!; [eassumption| |reflexivity]. cbn. now rewrite Hp.
  - rewrite view_history_run. destruct (accounts (data w) !! acc); now left.
Qed.

(** A property of new accounts that movements keep holds of every account of
    every reachable world. *)
Lemma reachable_account_ind (P : account -> Prop) :
  (forall nm p now, nm ≠ "" -> valid_pin p = true -> P (opened nm p now)) ->
  (forall a bal e, P a -> is_movement e = true -> P (posted a bal e)) ->
  forall w, reachable w -> forall k a, accounts (data w) !! k = Some a -> P a.
Proof.
  intros Hnew Hpost w Hw. induction Hw as [|o w Hw IH]; intros k a' Ha'.
  - cbn in Ha'. now rewrite lookup_empty in Ha'.
  - destruct (after_account_cases o w k a' Ha')
      as [Hk|[(nm & p & now & ? & ? & ->)|(a & bal & e & Hk & He & ->)]]; eauto.
Qed.

(** X5. Every account of every reachable world has a name that is not empty
    and a PIN that passes the test [len(pin) == 4 and pin.isdigit()], four
    characters with a digit value in Unicode: what [create_account] checked
    when the account was opened stays true, whatever is called later. *)
Theorem stored_credentials_valid w k a :
  reachable w -> accounts (data w) !! k = Some a ->
  name a ≠ "" /\ len (pin a) = 4%nat /\ isdigit (pin a) = true.
Proof.
  intros Hw. revert k a.
  apply (reachable_account_ind
           (fun a => name a ≠ "" /\ len (pin a) = 4%nat /\ isdigit (pin a) = true));
    [|auto|assumption].
  intros nm p now Hne Hv. unfold opened. cbn [name pin]. unfold valid_pin in Hv.
  apply andb_true_iff in Hv as [Hl Hd]. apply Z.eqb_eq in Hl. split_and!; auto; lia.
Qed.

(** X6. Every history of every reachable world begins with the one creation
    entry (type [create], int amount 0, note "Account created"), and every
    later entry is a deposit, withdraw, transfer_in or transfer_out entry
    whose amount is a float that passed the test [amt <= 0]: no entry
    records an amount that is zero or negative, and none is of another
    type. *)
Theorem histories_well_formed w k a :
  reachable w -> accounts (data w) !! k = Some a ->
  exists e rest, history a = e :: rest /\ is_creation e = true /\
    Forall (fun e' => is_movement e' = true) rest.
Proof.
  intros Hw. revert k a.
  apply (reachable_account_ind
           (fun a => exists e rest, history a = e :: rest /\ is_creation e = true /\
                       Forall (fun e' => is_movement e' = true) rest));
    [| |assumption].
  - intros nm p now _ _. eexists _, []. cbn. split_and!; auto.
  - intros a bal e (e0 & rest & Hh & Hc & Hr) He. exists e0, (rest ++ [e]). cbn.
    rewrite Hh. split_and!; auto. apply Forall_app. auto.
Qed.

(** X7. No account is ever removed and numbers are issued without gaps: in
    every reachable world the store holds exactly [next_acc - 1001]
    accounts. *)
Theorem account_count w :
  reachable w -> Z.of_nat (size (accounts (data w))) = next_acc (data w) - 1001.
Proof.
  revert w. apply reachable_ind_mutation; [reflexivity|].
  intros w w' Hw IH Hm. pose proof (reachable_numbered w Hw) as Hn.
  destruct Hm as [nm p now|acc a amt now Ha|acc a amt now Ha
                 |acc to_acc a t amt now_out now_in Hne Ha Ht]; cbn.
  - rewrite map_size_insert_None by now apply numbered_unused. lia.
  - rewrite map_size_insert_Some by eauto. lia.
  - rewrite map_size_insert_Some by eauto. lia.
  - rewrite !map_size_insert_Some; [lia|eauto|].
    rewrite lookup_insert_ne by congruence. eauto.
Qed.

(** ** The file *)

(** X8. The file follows the memory: in a reachable world a call that
    reports success has written the new data to the file before it returns, a
    call that does not leaves the file as it was, and what [load_data] reads
    back is the data in memory, so the reload that [main] does after a login
    changes nothing. *)
Theorem file_follows_data o w :
  reachable w ->
  (succeeded (call o w).1 = true -> file (after o w) = Some (data (after o w))) /\
  (succeeded (call o w).1 = false -> file (after o w) = file w) /\
  load_data (file (after o w)) = data (after o w) /\
  reload (after o w) = (Return tt, after o w).
Proof.
  intros Hw. split_and!.
  - intros Hs. destruct (call_cases o w) as [[Hf _]|[_ Hm]]; [congruence|].
    now destruct Hm.
  - intros Hf. now rewrite failure_unchanged.
  - pose proof (reload_reachable _ (reachable_call o w Hw)) as Hr.
    unfold reload in Hr. exact (f_equal (fun p => data p.2) Hr).
  - apply reload_reachable. now apply reachable_call.
Qed.

(** ** Sessions in the menu of one account *)

Lemma synced_after o w : synced w -> synced (after o w).
Proof.
  intros Hs. destruct (call_cases o w) as [[_ ->]|[_ Hm]]; [assumption|].
  now destruct Hm.
Qed.

Lemma synced_exec ops : forall w, synced w -> synced (exec ops w).
Proof.
  induction ops as [|o ops IH]; intros w Hs; [assumption|].
  rewrite exec_cons. apply IH. now apply synced_after.
Qed.

Lemma reload_synced w : synced w -> reload w = (Return tt, w).
Proof. unfold synced, reload. intros ->. now destruct w. Qed.

Lemma exec_app ops1 ops2 w : exec (ops1 ++ ops2) w = exec ops2 (exec ops1 w).
Proof. unfold exec. apply fold_left_app. Qed.

(** The functions of the account menu return when the account exists. *)
Lemma by_account_returns acc o w :
  by_account acc o -> is_Some (accounts (data w) !! acc) ->
  exists m, (call o w).1 = Return m.
Proof.
  intros Hby [a Ha].
  destruct o as [nm answers now|x p|x|x typed now|x typed now
                |x to_acc typed now_out now_in|x]; cbn in Hby; try contradiction;
    subst x; cbn [call].
  - rewrite show_balance_run, Ha. eauto.
  - rewrite deposit_run. destruct typed as [amt|]; [|eauto].
    destruct (amt <=? 0)%float; [eauto|]. rewrite Ha. eauto.
  - rewrite withdraw_run. destruct typed as [amt|]; [|eauto].
    destruct (amt <=? 0)%float; [eauto|]. rewrite Ha.
    destruct (balance a <? amt)%float; eauto.
  - rewrite transfer_run. destruct (String.eqb to_acc acc); [eauto|].
    destruct (accounts (data w) !! to_acc); [|eauto].
    destruct typed as [amt|]; [|eauto].
    destruct (amt <=? 0)%float; [eauto|]. rewrite Ha.
    destruct (balance a <? amt)%float; eauto.
  - rewrite view_history_run, Ha. eauto.
Qed.

(** They keep every account in the store, and all they do to an account
    other than their own is to credit a transfer to it. *)
Lemma by_account_step acc o w k a :
  by_account acc o -> accounts (data w) !! k = Some a ->
  exists a', accounts (data (after o w)) !! k = Some a' /\
    (k ≠ acc ->
     a' = a \/
     exists e amt, credit_from acc e /\ amount e = PyFloat amt /\
                   a' = posted a (balance a + amt) e).
Proof.
  intros Hby Hk. unfold after.
  destruct o as [nm answers now|x p|x|x typed now|x typed now
                |x to_acc typed now_out now_in|x]; cbn in Hby; try contradiction;
    subst x; cbn [call].
  - rewrite show_balance_run. destruct (accounts (data w) !! acc); eauto.
  - rewrite deposit_run. destruct typed as [amt|]; [|eauto].
    destruct (amt <=? 0)%float; [eauto|].
    destruct (accounts (data w) !! acc) as [b|] eqn:Hb; [|eauto]. cbn.
    rewrite lookup_insert. case_decide as Hd; [|eauto].
    eexists. split; [reflexivity|]. congruence.
  - rewrite withdraw_run. destruct typed as [amt|]; [|eauto].
    destruct (amt <=? 0)%float; [eauto|].
    destruct (accounts (data w) !! acc) as [b|] eqn:Hb; [|eauto].
    destruct (balance b <? amt)%float; [eauto|]. cbn.
    rewrite lookup_insert. case_decide as Hd; [|eauto].
    eexists. split; [reflexivity|]. congruence.
  - rewrite transfer_run. destruct (String.eqb_spec to_acc acc) as [|Hne]; [eauto|].
    destruct (accounts (data w) !! to_acc) as [t|] eqn:Ht; [|eauto].
    destruct typed as [amt|]; [|eauto].
    destruct (amt <=? 0)%float eqn:Hp; [eauto|].
    destruct (accounts (data w) !! acc) as [b|] eqn:Hb; [|eauto].
    destruct (balance b <? amt)%float; [eauto|]. cbn.
    rewrite !lookup_insert. case_decide as Hd1.
    + subst k. eexists. split; [reflexivity|]. intros _. right.
      replace t with a by congruence. eexists _, amt. split_and!; [| |reflexivity].
      * split_and!; cbn; eauto.
      * reflexivity.
    + case_decide as Hd2; [|eauto]. eexists. split; [reflexivity|]. congruence.
  - rewrite view_history_run. destruct (accounts (data w) !! acc); eauto.
Qed.

Lemma by_account_keeps acc o w k :
  by_account acc o -> is_Some (accounts (data w) !! k) ->
  is_Some (accounts (data (after o w)) !! k).
Proof.
  intros Hby [a Ha]. destruct (by_account_step acc o w k a Hby Ha) as (a' & Ha' & _).
  eauto.
Qed.

Lemma exec_by_account_keeps acc ops k :
  forall w, Forall (by_account acc) ops -> is_Some (accounts (data w) !! k) ->
    is_Some (accounts (data (exec ops w)) !! k).
Proof.
  induction ops as [|o ops IH]; intros w Hall Hk; [assumption|].
  inversion Hall as [|? ? Ho Hops]; subst. rewrite exec_cons.
  apply IH; [assumption|]. now apply (by_account_keeps acc).
Qed.

Lemma credited_refl acc a : credited acc a a.
Proof. split_and!; auto. exists []. rewrite app_nil_r. split_and!; auto. Qed.

Lemma credited_trans acc a b c :
  credited acc a b -> credited acc b c -> credited acc a c.
Proof.
  intros (Hn1 & Hp1 & l1 & Hh1 & Hc1 & Hb1) (Hn2 & Hp2 & l2 & Hh2 & Hc2 & Hb2).
  split_and!; try congruence. exists (l1 ++ l2). split_and!.
  - now rewrite Hh2, Hh1, app_assoc.
  - apply Forall_app; auto.
  - now rewrite fold_left_app, <- Hb1.
Qed.

(** X9. A session in the menu of the account [acc] cannot take anything from
    another account: after any sequence of its calls every other account is
    still there with its name and PIN, its history only extended by
    [transfer_in] entries from [acc], and its balance is the old balance with
    the amounts of these entries added in turn. *)
Theorem other_accounts_only_credited acc ops k :
  forall w a, Forall (by_account acc) ops -> k ≠ acc ->
    accounts (data w) !! k = Some a ->
    exists a', accounts (data (exec ops w)) !! k = Some a' /\ credited acc a a'.
Proof.
  induction ops as [|o ops IH]; intros w a Hall Hne Hk.
  - exists a. split; [assumption|apply credited_refl].
  - inversion Hall as [|? ? Ho Hops]; subst. rewrite exec_cons.
    destruct (by_account_step acc o w k a Ho Hk) as (a1 & Ha1 & Hcase).
    destruct (IH (after o w) a1 Hops Hne Ha1) as (a' & Ha' & Hcr).
    exists a'. split; [assumption|]. apply (credited_trans acc a a1 a'); [|assumption].
    destruct (Hcase Hne) as [->|(e & amt & He & Hamt & ->)]; [apply credited_refl|].
    split_and!; auto. exists [e]. cbn. rewrite Hamt. split_and!; auto.
Qed.

(** ** The console *)

Lemma ends_well_here {A} (P : op -> Prop) c c' (r : run A) :
  world_of c' = world_of c -> (length (stdin c') <= length (stdin c))%nat ->
  ends_well P c' r -> ends_well P c r.
Proof.
  intros Hw Hl. destruct r as [a c2|[k|] c2|]; cbn; auto.
  all: intros [(ops & Hops & He) Hlen]; split; [exists ops; split; congruence|lia].
Qed.

Lemma ends_well_trans {A B} (P : op -> Prop) c1 c2 (a : A) (r : run B) :
  ends_well P c1 (Finished a c2) -> ends_well P c2 r -> ends_well P c1 r.
Proof.
  intros [(ops1 & H1 & He1) Hl1]. destruct r as [b c3|[k|] c3|]; cbn; auto.
  all: intros [(ops2 & H2 & He2) Hl2]; split; [|lia].
  all: exists (ops1 ++ ops2); split; [now apply Forall_app|].
  all: now rewrite exec_app, <- He1.
Qed.

Lemma ends_well_bind {A B} (P : op -> Prop) (m : IO A) (k : A -> IO B) c :
  ends_well P c (m c) ->
  (forall a c2, m c = Finished a c2 -> ends_well P c2 (k a c2)) ->
  ends_well P c (io_bind m k c).
Proof.
  unfold io_bind. intros Hm Hk. destruct (m c) as [a c2|e c2|] eqn:E.
  - eapply ends_well_trans; [exact Hm|]. now apply Hk.
  - exact Hm.
  - exact Hm.
Qed.

Lemma ends_well_weaken {A} (P Q : op -> Prop) c (r : run A) :
  (forall o, P o -> Q o) -> ends_well P c r -> ends_well Q c r.
Proof.
  intros HPQ. destruct r as [a c2|[k|] c2|]; cbn; auto.
  all: intros [(ops & Hops & He) Hl]; split; [|assumption].
  all: exists ops; split; [|assumption]; eapply Forall_impl; eauto.
Qed.

Lemma ends_well_still {A} (P : op -> Prop) c (a : A) c' :
  world_of c' = world_of c -> (length (stdin c') <= length (stdin c))%nat ->
  ends_well P c (Finished a c').
Proof. intros Hw Hl. split; [now exists []|assumption]. Qed.

Lemma ends_well_input {B} (P : op -> Prop) (k : string -> IO B) c :
  (forall line rest, stdin c = line :: rest ->
     ends_well P (Console (world_of c) rest (clock c) (stdout c))
       (k line (Console (world_of c) rest (clock c) (stdout c)))) ->
  ends_well P c (io_bind input k c).
Proof.
  intros Hk. unfold io_bind, input. destruct (stdin c) as [|line rest] eqn:E.
  - cbn. split; [now exists []|reflexivity].
  - eapply ends_well_here; [| |now apply Hk]; cbn; [reflexivity|rewrite E; cbn; lia].
Qed.

Lemma ends_well_print (P : op -> Prop) o c : ends_well P c (print o c).
Proof. now apply ends_well_still. Qed.

Lemma ends_well_call (P : op -> Prop) (o : op) c (m : message) c' :
  P o -> world_of c' = after o (world_of c) -> stdin c' = stdin c ->
  ends_well P c (Finished m c').
Proof.
  intros Ho Hw Hs. split; [|now rewrite Hs]. exists [o]. split; [|assumption].
  now constructor.
Qed.

Section ConsoleProperties.

Variable to_float : string -> option float.
Variable utcnow : nat -> string.

Lemma stamped_ends (P : op -> Prop) (o : op) body c :
  call o (world_of c) = body (utcnow (clock c)) (world_of c) ->
  P o -> (exists m, (call o (world_of c)).1 = Return m) ->
  ends_well P c (stamped utcnow body c).
Proof.
  intros Hcall Ho [m Hm]. unfold stamped. rewrite <- Hcall.
  destruct (call o (world_of c)) as [r w'] eqn:E. cbn in Hm. subst r.
  apply (ends_well_call P o); auto. cbn. unfold after. now rewrite E.
Qed.

Lemma stamped_twice_ends (P : op -> Prop) (o : op) body c :
  call o (world_of c) = body (utcnow (clock c)) (utcnow (S (clock c))) (world_of c) ->
  P o -> (exists m, (call o (world_of c)).1 = Return m) ->
  ends_well P c (stamped_twice utcnow body c).
Proof.
  intros Hcall Ho [m Hm]. unfold stamped_twice. rewrite <- Hcall.
  destruct (call o (world_of c)) as [r w'] eqn:E. cbn in Hm. subst r.
  apply (ends_well_call P o); auto. cbn. unfold after. now rewrite E.
Qed.

Lemma on_data_ends (P : op -> Prop) (o : op) c :
  P o -> (exists m, (call o (world_of c)).1 = Return m) ->
  ends_well P c (on_data (call o) c).
Proof.
  intros Ho [m Hm]. unfold on_data.
  destruct (call o (world_of c)) as [r w'] eqn:E. cbn in Hm. subst r.
  apply (ends_well_call P o); auto. cbn. unfold after. now rewrite E.
Qed.

Lemma show_balance_io_ends acc c :
  is_Some (accounts (data (world_of c)) !! acc) ->
  ends_well (by_account acc) c (show_balance_io acc c).
Proof.
  intros Ha. apply ends_well_bind.
  - apply (on_data_ends (by_account acc) (ShowBalance acc)); [reflexivity|].
    now apply (by_account_returns acc).
  - intros m c2 _. apply ends_well_print.
Qed.

Lemma view_history_io_ends acc c :
  is_Some (accounts (data (world_of c)) !! acc) ->
  ends_well (by_account acc) c (view_history_io acc c).
Proof.
  intros Ha. apply ends_well_bind.
  - apply (on_data_ends (by_account acc) (ViewHistory acc)); [reflexivity|].
    now apply (by_account_returns acc).
  - intros m c2 _. apply ends_well_print.
Qed.

Lemma deposit_io_ends acc c :
  is_Some (accounts (data (world_of c)) !! acc) ->
  ends_well (by_account acc) c (deposit_io to_float utcnow acc c).
Proof.
  intros Ha. apply ends_well_input. intros line rest _. apply ends_well_bind.
  - apply (stamped_ends _ (Deposit acc (to_float line) (utcnow (clock c))));
      [reflexivity|reflexivity|].
    now apply (by_account_returns acc).
  - intros m c2 _. apply ends_well_print.
Qed.

Lemma withdraw_io_ends acc c :
  is_Some (accounts (data (world_of c)) !! acc) ->
  ends_well (by_account acc) c (withdraw_io to_float utcnow acc c).
Proof.
  intros Ha. apply ends_well_input. intros line rest _. apply ends_well_bind.
  - apply (stamped_ends _ (Withdraw acc (to_float line) (utcnow (clock c))));
      [reflexivity|reflexivity|].
    now apply (by_account_returns acc).
  - intros m c2 _. apply ends_well_print.
Qed.

Lemma transfer_io_ends acc c :
  is_Some (accounts (data (world_of c)) !! acc) ->
  ends_well (by_account acc) c (transfer_io to_float utcnow acc c).
Proof.
  intros Ha. apply ends_well_input. intros to_acc rest _.
  destruct (String.eqb to_acc acc); [apply ends_well_print|].
  apply ends_well_bind; [now apply ends_well_still|].
  intros known c2 Hk. unfold on_data, has_account in Hk. cbn in Hk.
  injection Hk as _ <-.
  destruct (negb known); [apply ends_well_print|].
  apply ends_well_input. intros line rest' _. apply ends_well_bind.
  - apply (stamped_twice_ends _
             (Transfer acc to_acc (to_float line) (utcnow (clock c))
                (utcnow (S (clock c)))));
      [reflexivity|reflexivity|].
    now apply (by_account_returns acc).
  - intros m c3 _. apply ends_well_print.
Qed.

(** Where [ends_well] leaves the account. *)
Lemma ends_well_keeps {A} acc c (a : A) c' :
  ends_well (by_account acc) c (Finished a c') ->
  is_Some (accounts (data (world_of c)) !! acc) ->
  is_Some (accounts (data (world_of c')) !! acc) /\
  (length (stdin c') <= length (stdin c))%nat.
Proof.
  intros [(ops & Hops & ->) Hl] Ha. split; [|assumption].
  now apply (exec_by_account_keeps acc).
Qed.

Lemma account_menu_ends fuel acc :
  forall c, is_Some (accounts (data (world_of c)) !! acc) ->
    (length (stdin c) < fuel)%nat ->
    ends_well (by_account acc) c (account_menu to_float utcnow fuel acc c).
Proof.
  induction fuel as [|fuel IH]; intros c Ha Hlen; [lia|].
  cbn [account_menu]. apply ends_well_input. intros choice rest Hin.
  rewrite Hin in Hlen. cbn in Hlen.
  set (c1 := Console (world_of c) rest (clock c) (stdout c)).
  assert (forall (m : IO unit),
            ends_well (by_account acc) c1 (m c1) ->
            ends_well (by_account acc) c1
              (io_bind m (fun _ => account_menu to_float utcnow fuel acc) c1)) as Hnext.
  { intros m Hm. apply ends_well_bind; [assumption|]. intros [] c2 E. rewrite E in Hm.
    destruct (ends_well_keeps acc c1 tt c2 Hm Ha) as [Ha2 Hl2].
    apply IH; [assumption|]. cbn in Hl2. lia. }
  destruct (String.eqb choice "1"); [apply Hnext, show_balance_io_ends, Ha|].
  destruct (String.eqb choice "2"); [apply Hnext, deposit_io_ends, Ha|].
  destruct (String.eqb choice "3"); [apply Hnext, withdraw_io_ends, Ha|].
  destruct (String.eqb choice "4"); [apply Hnext, transfer_io_ends, Ha|].
  destruct (String.eqb choice "5"); [apply Hnext, view_history_io_ends, Ha|].
  destruct (String.eqb choice "6"); [apply ends_well_print|].
  apply Hnext. apply ends_well_print.
Qed.

End ConsoleProperties.

Section ConsoleMain.

Variable to_float : string -> option float.
Variable utcnow : nat -> string.

(** The loop of the PIN prompt reads what [choose_pin] chooses from. *)
Lemma read_pin_chooses fuel :
  forall c, (length (stdin c) < fuel)%nat ->
    match read_pin fuel c with
    | Finished pin c' =>
        choose_pin (stdin c) = Some pin /\ world_of c' = world_of c /\
        clock c' = clock c /\ (length (stdin c') <= length (stdin c))%nat
    | Crashed e c' =>
        e = EOFError /\ choose_pin (stdin c) = None /\ world_of c' = world_of c /\
        (length (stdin c') <= length (stdin c))%nat
    | OutOfFuel => False
    end.
Proof.
  induction fuel as [|fuel IH]; intros c Hlen; [lia|].
  cbn [read_pin]. unfold io_bind at 1, input.
  destruct c as [w lines k out]. cbn [stdin world_of clock stdout] in *.
  destruct lines as [|p rest]; [cbn; auto|]. cbn [choose_pin length] in *.
  destruct ((Z.of_nat (len p) =? 4) && isdigit p).
  - unfold io_bind at 1, input. cbn [stdin world_of clock stdout].
    destruct rest as [|cf rest']; [cbn; split_and!; auto|]. cbn [length] in *.
    destruct (String.eqb p cf).
    + cbn. split_and!; auto; lia.
    + unfold io_bind, print. cbn [stdin world_of clock stdout].
      specialize (IH (Console w rest' k (out ++ [PinMismatch])) ltac:(cbn; lia)).
      destruct (read_pin fuel _) as [pin c'|e c'|]; cbn in *; [| |assumption].
      * destruct IH as (? & ? & ? & ?). split_and!; auto; lia.
      * destruct IH as (? & ? & ? & ?). split_and!; auto; lia.
  - unfold io_bind, print. cbn [stdin world_of clock stdout].
    specialize (IH (Console w rest k (out ++ [PinMalformed])) ltac:(cbn; lia)).
    destruct (read_pin fuel _) as [pin c'|e c'|]; cbn in *; [| |assumption].
    + destruct IH as (? & ? & ? & ?). split_and!; auto; lia.
    + destruct IH as (? & ? & ? & ?). split_and!; auto; lia.
Qed.

Lemma create_account_io_call name answers fuel c :
  stdin c = name :: answers -> (length answers < fuel)%nat ->
  match create_account_io utcnow fuel c with
  | Finished _ c' =>
      exists m,
        create_account name answers (utcnow (clock c)) (world_of c)
          = (Return m, world_of c') /\
        last (stdout c') = Some (Printed m) /\
        (length (stdin c') < length (stdin c))%nat
  | Crashed e c' =>
      create_account name answers (utcnow (clock c)) (world_of c)
        = (Raise e, world_of c') /\
      e = EOFError /\ world_of c' = world_of c /\
      (length (stdin c') <= length (stdin c))%nat
  | OutOfFuel => False
  end.
Proof.
  intros Hin Hlen. unfold create_account_io. unfold io_bind at 1, input. rewrite Hin.
  rewrite create_account_run.
  destruct (String.eqb name "").
  { cbn. exists NameEmpty. split_and!; [reflexivity|apply last_snoc|lia]. }
  unfold io_bind at 1.
  pose proof (read_pin_chooses fuel (Console (world_of c) answers (clock c) (stdout c))
                ltac:(cbn; lia)) as Hpin.
  destruct (read_pin fuel _) as [pin c1|e c1|]; cbn [stdin world_of clock] in Hpin;
    [| |assumption].
  - destruct Hpin as (-> & Hw & Hk & Hl).
    destruct c1 as [w1 lines1 k1 out1]. cbn in Hw, Hk, Hl. subst w1 k1.
    cbn. eexists. split_and!; [reflexivity|apply last_snoc|cbn in Hl; lia].
  - destruct Hpin as (-> & -> & Hw & Hl). cbn. rewrite Hw. split_and!; auto.
Qed.

Lemma create_account_io_ends fuel c :
  (length (stdin c) <= fuel)%nat ->
  ends_well (fun _ => True) c (create_account_io utcnow fuel c).
Proof.
  intros Hlen. destruct (stdin c) as [|name answers] eqn:Hin.
  { unfold create_account_io, io_bind, input. rewrite Hin. cbn.
    split; [now exists []|lia]. }
  pose proof (create_account_io_call name answers fuel c Hin
                ltac:(cbn in Hlen; lia)) as Hr.
  destruct (create_account_io utcnow fuel c) as [[] c'|e c'|]; [| |assumption].
  - destruct Hr as (m & Hrun & _ & Hl). split; [|lia].
    exists [CreateAccount name answers (utcnow (clock c))]. split; [now constructor|].
    cbn. unfold after. cbn [call]. now rewrite Hrun.
  - destruct Hr as (_ & -> & Hw & Hl). cbn. split; [now exists []|].
    exact Hl.
Qed.

(** X10. [create_account] at the console does what [create_account] does
    with the lines typed.  With no line left it stops on [EOFError] at the
    prompt for the name, nothing read, printed or changed.  With the name and
    then the answers still to come, it ends as that call ends, in the same
    world and having printed its message last, or stops on the same
    [EOFError] with nothing changed; it reads nothing beyond the confirmed
    PIN, and the loop of the PIN prompt always ends. *)
Theorem create_account_io_refines fuel c :
  (stdin c = [] -> create_account_io utcnow fuel c = Crashed EOFError c) /\
  (forall name answers,
     stdin c = name :: answers -> (length answers < fuel)%nat ->
     match create_account_io utcnow fuel c with
     | Finished _ c' =>
         exists m,
           create_account name answers (utcnow (clock c)) (world_of c)
             = (Return m, world_of c') /\
           last (stdout c') = Some (Printed m) /\
           (length (stdin c') < length (stdin c))%nat
     | Crashed e c' =>
         create_account name answers (utcnow (clock c)) (world_of c)
           = (Raise e, world_of c') /\
         e = EOFError /\ world_of c' = world_of c /\
         (length (stdin c') <= length (stdin c))%nat
     | OutOfFuel => False
     end).
Proof.
  split.
  - intros Hin. unfold create_account_io, io_bind, input. now rewrite Hin.
  - intros name answers. apply create_account_io_call.
Qed.

Lemma authenticate_io_returns c :
  match authenticate_io c with
  | Finished logged c' =>
      world_of c' = world_of c /\ (length (stdin c') <= length (stdin c))%nat /\
      forall acc, logged = Some acc -> is_Some (accounts (data (world_of c)) !! acc)
  | Crashed e c' =>
      e = EOFError /\ world_of c' = world_of c /\
      (length (stdin c') <= length (stdin c))%nat
  | OutOfFuel => False
  end.
Proof.
  unfold authenticate_io, io_bind, input, on_data.
  destruct c as [w lines k out]. cbn [stdin world_of clock stdout].
  destruct lines as [|acc [|p rest]]; cbn [stdin world_of clock stdout length];
    [split_and!; auto..|].
  rewrite authenticate_run.
  destruct (accounts (data w) !! acc) as [a|] eqn:Ha; cbn.
  - destruct (negb _); cbn; split_and!; auto; try lia; try discriminate.
    intros ? [= <-]. eauto.
  - split_and!; auto; try lia; discriminate.
Qed.

Lemma io_bind_finished {A B} (m : IO A) (k : A -> IO B) c b c' :
  io_bind m k c = Finished b c' ->
  exists a c2, m c = Finished a c2 /\ k a c2 = Finished b c'.
Proof. unfold io_bind. destruct (m c) as [a c2| |]; try discriminate. eauto. Qed.

Lemma account_menu_logs_out fuel acc :
  forall c a c', account_menu to_float utcnow fuel acc c = Finished a c' ->
    last (stdout c') = Some LoggingOut.
Proof.
  induction fuel as [|fuel IH]; intros c a c' E; [discriminate|].
  cbn [account_menu] in E. apply io_bind_finished in E as (choice & c1 & _ & E).
  repeat (destruct (String.eqb choice _);
          [try (apply io_bind_finished in E as (? & ? & _ & E); eauto)|]).
  - injection E as _ <-. apply last_snoc.
  - apply io_bind_finished in E as (? & ? & _ & E). eauto.
Qed.

Lemma main_loop_says_goodbye fuel :
  forall c a c', main_loop to_float utcnow fuel c = Finished a c' ->
    last (stdout c') = Some Goodbye.
Proof.
  induction fuel as [|fuel IH]; intros c a c' E; [discriminate|].
  cbn [main_loop] in E. apply io_bind_finished in E as (choice & c1 & _ & E).
  destruct (String.eqb choice "1").
  { apply io_bind_finished in E as (? & ? & _ & E). eauto. }
  destruct (String.eqb choice "2").
  { apply io_bind_finished in E as (? & ? & _ & E).
    apply io_bind_finished in E as (? & ? & _ & E).
    apply io_bind_finished in E as (? & ? & _ & E). eauto. }
  destruct (String.eqb choice "3").
  { injection E as _ <-. apply last_snoc. }
  apply io_bind_finished in E as (? & ? & _ & E). eauto.
Qed.

Lemma ends_well_finished {A} (P : op -> Prop) c (a : A) c' :
  ends_well P c (Finished a c') ->
  (exists ops, Forall P ops /\ world_of c' = exec ops (world_of c)) /\
  (length (stdin c') <= length (stdin c))%nat.
Proof. auto. Qed.

Lemma main_loop_ends fuel :
  forall c, synced (world_of c) -> (length (stdin c) < fuel)%nat ->
    ends_well (fun _ => True) c (main_loop to_float utcnow fuel c).
Proof.
  induction fuel as [|fuel IH]; intros c Hs Hlen; [lia|].
  cbn [main_loop]. apply ends_well_input. intros choice rest Hin.
  rewrite Hin in Hlen. cbn in Hlen.
  set (c1 := Console (world_of c) rest (clock c) (stdout c)).
  assert (forall (m : IO unit),
            ends_well (fun _ => True) c1 (m c1) ->
            ends_well (fun _ => True) c1
              (io_bind m (fun _ => main_loop to_float utcnow fuel) c1)) as Hnext.
  { intros m Hm. apply ends_well_bind; [assumption|]. intros [] c2 E. rewrite E in Hm.
    destruct (ends_well_finished _ _ _ _ Hm) as [(ops & _ & Hw) Hl].
    apply IH; [rewrite Hw; now apply synced_exec|]. cbn in Hl. lia. }
  destruct (String.eqb choice "1").
  { apply Hnext, create_account_io_ends. cbn. lia. }
  destruct (String.eqb choice "2").
  { pose proof (authenticate_io_returns c1) as Hauth.
    apply ends_well_bind.
    - destruct (authenticate_io c1) as [logged c2|e c2|]; [| |assumption].
      + destruct Hauth as (Hw & Hl & _). now apply ends_well_still.
      + destruct Hauth as (-> & Hw & Hl). split; [now exists []|assumption].
    - intros logged c2 E. rewrite E in Hauth. destruct Hauth as (Hw & Hl & Hacc).
      assert (ends_well (fun _ => True) c2
                (match logged with
                 | Some acc =>
                     if String.eqb acc "" then io_ret tt
                     else account_menu to_float utcnow fuel acc
                 | None => io_ret tt
                 end c2)) as Hmenu.
      { destruct logged as [acc|]; [|now apply ends_well_still].
        destruct (String.eqb acc ""); [now apply ends_well_still|].
        apply (ends_well_weaken (by_account acc)); [auto|].
        apply account_menu_ends; [rewrite Hw; now apply Hacc|]. cbn in Hl. lia. }
      apply ends_well_bind; [exact Hmenu|]. intros [] c3 E3. rewrite E3 in Hmenu.
      destruct (ends_well_finished _ _ _ _ Hmenu) as [(ops & _ & Hw3) Hl3].
      assert (synced (world_of c3)) as Hs3.
      { rewrite Hw3. apply synced_exec. now rewrite Hw. }
      apply ends_well_bind.
      + unfold on_data. rewrite (reload_synced _ Hs3). now apply ends_well_still.
      + intros [] c4 E4. unfold on_data in E4. rewrite (reload_synced _ Hs3) in E4.
        injection E4 as <-. apply IH; [exact Hs3|]. cbn in *. lia. }
  destruct (String.eqb choice "3"); [apply ends_well_print|].
  apply Hnext, ends_well_print.
Qed.

(** X11. In the menu of an account that exists, whatever is typed, the
    program never raises [KeyError] and the loop ends: either with choice 6,
    "Logging out." printed last, or on [EOFError] when the input runs out.
    All it did is a sequence of calls for this account. *)
Theorem account_menu_safe fuel acc c :
  is_Some (accounts (data (world_of c)) !! acc) ->
  (length (stdin c) < fuel)%nat ->
  match account_menu to_float utcnow fuel acc c with
  | Finished _ c' =>
      (exists ops, Forall (by_account acc) ops /\
                   world_of c' = exec ops (world_of c)) /\
      last (stdout c') = Some LoggingOut
  | Crashed e c' =>
      e = EOFError /\
      exists ops, Forall (by_account acc) ops /\ world_of c' = exec ops (world_of c)
  | OutOfFuel => False
  end.
Proof.
  intros Ha Hlen. pose proof (account_menu_ends to_float utcnow fuel acc c Ha Hlen) as He.
  pose proof (account_menu_logs_out fuel acc c) as Hout.
  destruct (account_menu to_float utcnow fuel acc c) as [a c'|[k|] c'|];
    cbn in He; try contradiction.
  - destruct He as [He _]. split; [exact He|]. eapply Hout. reflexivity.
  - destruct He as [He _]. split; [reflexivity|exact He].
Qed.

Lemma reachable_continues ops w : reachable w -> reachable (exec ops w).
Proof.
  intros Hw. destruct (reachable_session w Hw) as [ops0 ->].
  rewrite <- exec_app. apply reachable_exec.
Qed.

(** What the program reads at its start from the file of a reachable world
    is that world. *)
Lemma boot_reachable w : reachable w -> boot (file w) = w.
Proof.
  intros Hw. pose proof (reload_reachable w Hw) as Hr. unfold reload in Hr.
  unfold boot. exact (f_equal snd Hr).
Qed.

(** X12. Started without a file, or on the file that earlier sessions of the
    program left (the file of a reachable world), whatever is typed, the
    program never raises [KeyError] and its loops end: [main] returns after
    choice 3 with "Goodbye!" printed last, or stops on [EOFError] when the
    input runs out.  The world it leaves is the world after some sequence of
    calls from the world that left the file, hence again a reachable world.
    (A file that the program did not write is outside this property.) *)
Theorem main_safe w0 lines fuel :
  reachable w0 ->
  (length lines < fuel)%nat ->
  match main to_float utcnow fuel (start (file w0) lines) with
  | Finished _ c' =>
      (exists ops, world_of c' = exec ops w0) /\
      reachable (world_of c') /\
      last (stdout c') = Some Goodbye
  | Crashed e c' =>
      e = EOFError /\
      (exists ops, world_of c' = exec ops w0) /\
      reachable (world_of c')
  | OutOfFuel => False
  end.
Proof.
  intros Hw0 Hlen. set (c0 := Console (boot (file w0)) lines 0%nat []).
  change (main to_float utcnow fuel (start (file w0) lines))
    with (main_loop to_float utcnow fuel c0).
  assert (synced (world_of c0)) as Hs by reflexivity.
  pose proof (main_loop_ends fuel c0 Hs Hlen) as He.
  pose proof (main_loop_says_goodbye fuel c0) as Hbye.
  assert (world_of c0 = w0) as Hboot by (now apply boot_reachable).
  destruct (main_loop to_float utcnow fuel c0) as [a c'|[k|] c'|];
    cbn in He; try contradiction.
  - destruct He as [(ops & _ & Hw) _]. cbn [world_of c0] in Hboot, Hw.
    rewrite Hboot in Hw. split_and!; [eauto| |eapply Hbye; reflexivity].
    rewrite Hw. now apply reachable_continues.
  - destruct He as [(ops & _ & Hw) _]. cbn [world_of c0] in Hboot, Hw.
    rewrite Hboot in Hw. split_and!; [reflexivity|eauto|].
    rewrite Hw. now apply reachable_continues.
Qed.

End ConsoleMain.

(** ** Both sides of the transfers *)

Lemma sent_to_snoc k h e :
  sent_to k (h ++ [e]) =
    sent_to k h ++
    (if String.eqb (type e) "transfer_out" && String.eqb (note e) ("To " +:+ k)
     then [amount e] else []).
Proof.
  unfold sent_to. rewrite List.filter_app, map_app. cbn.
  now destruct (String.eqb (type e) "transfer_out" && _).
Qed.

Lemma received_from_snoc acc h e :
  received_from acc (h ++ [e]) =
    received_from acc h ++
    (if String.eqb (type e) "transfer_in" && String.eqb (note e) ("From " +:+ acc)
     then [amount e] else []).
Proof.
  unfold received_from. rewrite List.filter_app, map_app. cbn.
  now destruct (String.eqb (type e) "transfer_in" && _).
Qed.

Lemma history_of_insert n (m : gmap string account) f k x a :
  history_of (World (Store n (<[k := a]> m)) f) x =
    if decide (k = x) then history a else history_of (World (Store n m) f) x.
Proof. unfold history_of. cbn. rewrite lookup_insert. now case_decide. Qed.

Lemma history_of_same n f w x :
  history_of (World (Store n (accounts (data w))) f) x = history_of w x.
Proof. reflexivity. Qed.

Lemma history_of_here w k a : accounts (data w) !! k = Some a -> history_of w k = history a.
Proof. unfold history_of. now intros ->. Qed.

Lemma eqb_prefix (p u v : string) : String.eqb (p +:+ u) (p +:+ v) = String.eqb u v.
Proof.
  induction p as [|c p IH]; [reflexivity|].
  change (String.eqb (String c (p +:+ u)) (String c (p +:+ v)) = String.eqb u v).
  cbn [String.eqb]. now rewrite Ascii.eqb_refl.
Qed.

(** X13. The two sides of every transfer are on record: in every reachable
    world, for any two account numbers, the amounts of the [transfer_out]
    entries that the first keeps for the second are, in the same order, the
    amounts of the [transfer_in] entries that the second keeps for the first;
    and nothing was sent to, or received from, a number without account. *)
Theorem transfers_paired w acc k :
  reachable w ->
  sent_to k (history_of w acc) = received_from acc (history_of w k).
Proof.
  intros Hw. revert acc k. revert w Hw. apply (reachable_ind_mutation
    (fun w => forall acc k, sent_to k (history_of w acc) = received_from acc (history_of w k))).
  { reflexivity. }
  intros w w' Hw IH Hm acc k. pose proof (reachable_numbered w Hw) as Hn.
  destruct Hm as [nm p now|x a amt now Ha|x a amt now Ha
                 |x y a t amt now_out now_in Hne Ha Ht].
  - unfold saved. rewrite !history_of_insert, !history_of_same.
    assert (history_of w (pretty (next_acc (data w))) = []) as Hnew.
    { unfold history_of. now rewrite (numbered_unused w Hn). }
    pose proof (IH acc k) as H1. pose proof (IH (pretty (next_acc (data w))) k) as H2.
    pose proof (IH acc (pretty (next_acc (data w)))) as H3. rewrite Hnew in H2, H3.
    repeat case_decide; subst; cbn [opened history]; auto.
  - unfold saved. rewrite !history_of_insert, !history_of_same.
    cbn [posted history].
    pose proof (IH acc k) as H1. pose proof (history_of_here w x a Ha) as Hx.
    repeat case_decide; subst; rewrite <- ?Hx, ?sent_to_snoc, ?received_from_snoc;
      cbn; rewrite ?app_nil_r; auto.
  - unfold saved. rewrite !history_of_insert, !history_of_same.
    cbn [posted history].
    pose proof (IH acc k) as H1. pose proof (history_of_here w x a Ha) as Hx.
    repeat case_decide; subst; rewrite <- ?Hx, ?sent_to_snoc, ?received_from_snoc;
      cbn; rewrite ?app_nil_r; auto.
  - unfold saved. rewrite !history_of_insert, !history_of_same.
    cbn [posted history].
    pose proof (IH acc k) as H1.
    pose proof (history_of_here w x a Ha) as Hx. pose proof (history_of_here w y t Ht) as Hy.
    repeat case_decide; subst; try congruence;
      rewrite <- ?Hx, <- ?Hy, ?sent_to_snoc, ?received_from_snoc;
      cbn [type note amount]; rewrite ?eqb_prefix, ?String.eqb_refl; cbn;
      rewrite ?app_nil_r; auto.
    all: repeat match goal with
         | |- context [String.eqb ?u ?v] =>
             destruct (String.eqb_spec u v); try congruence
         end; cbn; rewrite ?app_nil_r; auto; congruence.
Qed.

(** ** Stores read from a file *)

(** X14. Whatever store the file held, every call and so every session keeps
    what it finds in order: if no balance of the store is below zero, none is
    afterwards, and if every balance is the signed sum of its history, it
    still is afterwards. *)
Theorem sessions_keep_order ops w :
  (solvent w -> solvent (exec ops w)) /\
  (replayable w -> replayable (exec ops w)).
Proof.
  revert w. induction ops as [|o ops IH]; intros w; [split; auto|].
  rewrite exec_cons. destruct (IH (after o w)) as [IHs IHr]. split; intros H.
  - apply IHs. destruct (call_cases o w) as [[_ ->]|[_ Hm]]; [assumption|].
    now apply (solvent_mutation w).
  - apply IHr. destruct (call_cases o w) as [[_ ->]|[_ Hm]]; [assumption|].
    now apply (replayable_mutation w).
Qed.

(** ** The further properties on sample sessions *)

Lemma deposit_behaviour_witness :
  exists a, accounts (data scenario) !! "1002" = Some a /\
    (25 <=? 0)%float = false /\
    (deposit "1002" (Some 25%float) "t6" scenario).1 = Return (Deposited 25%float) /\
    accounts (data (deposit "1002" (Some 25%float) "t6" scenario).2) !! "1002" =
      Some (Account (name a) (pin a) (balance a + 25)
              (history a ++ [Entry "t6" "deposit" (PyFloat 25%float) "Cash deposit"])).
Proof.
  assert (exists a, accounts (data scenario) !! "1002" = Some a) as (a & Ha)
    by (eexists; vm_compute; reflexivity).
  exists a. split; [exact Ha|]. split; [reflexivity|].
  destruct (deposit_behaviour "1002" (Some 25%float) "t6" scenario)
    as (_ & _ & _ & _ & _ & Hok).
  destruct (Hok 25%float a eq_refl eq_refl Ha) as (Hmsg & Hacc & _).
  split; assumption.
Defined.

Lemma authenticate_accepts_exactly_witness :
  (exists a, accounts (data scenario) !! "1001" = Some a /\ pin a = "1234") /\
  (authenticate "1001" "1234" scenario).1 = Return (LoggedIn "1001").
Proof.
  assert (exists a, accounts (data scenario) !! "1001" = Some a /\ pin a = "1234") as Hex
    by (eexists; split; vm_compute; reflexivity).
  split; [exact Hex|].
  apply (authenticate_accepts_exactly "1001" "1234" scenario). exact Hex.
Defined.

Lemma chosen_pin_opens_account_witness :
  reachable scenario /\ choose_pin ["12a4"; "4321"; "4321"] = Some "4321" /\
  (authenticate "1003" "4321"
     (exec [Deposit "1003" (Some 500%float) "t7"; Transfer "1003" "1001" (Some 200%float) "t8" "t9"]
        (after (CreateAccount "Mina" ["12a4"; "4321"; "4321"] "t6") scenario))).1
  = Return (LoggedIn "1003").
Proof.
  assert (reachable scenario) as Hw by apply reachable_exec.
  split; [exact Hw|]. split; [reflexivity|].
  apply (chosen_pin_opens_account "Mina" ["12a4"; "4321"; "4321"] "t6" "4321" _ scenario Hw);
    [discriminate|reflexivity].
Defined.

Lemma choose_pin_sound_witness :
  choose_pin ["12a4"; "1234"; "1235"; "²²²²"; "²²²²"] = Some "²²²²" /\
  len "²²²²" = 4%nat /\ isdigit "²²²²" = true.
Proof.
  split; [reflexivity|].
  destruct (choose_pin_sound ["12a4"; "1234"; "1235"; "²²²²"; "²²²²"]) as (Hsound & _).
  destruct (Hsound "²²²²" eq_refl) as (Hl & Hd & _). split; assumption.
Defined.

Lemma stored_credentials_valid_witness :
  reachable scenario /\
  exists a, accounts (data scenario) !! "1002" = Some a /\
    name a ≠ "" /\ len (pin a) = 4%nat /\ isdigit (pin a) = true.
Proof.
  assert (reachable scenario) as Hw by apply reachable_exec.
  assert (exists a, accounts (data scenario) !! "1002" = Some a) as (a & Ha)
    by (eexists; vm_compute; reflexivity).
  split; [exact Hw|]. exists a. split; [exact Ha|].
  exact (stored_credentials_valid scenario "1002" a Hw Ha).
Defined.

Lemma histories_well_formed_witness :
  reachable scenario /\
  exists a, accounts (data scenario) !! "1001" = Some a /\
    exists e rest, history a = e :: rest /\ is_creation e = true /\
      Forall (fun e' => is_movement e' = true) rest.
Proof.
  assert (reachable scenario) as Hw by apply reachable_exec.
  assert (exists a, accounts (data scenario) !! "1001" = Some a) as (a & Ha)
    by (eexists; vm_compute; reflexivity).
  split; [exact Hw|]. exists a. split; [exact Ha|].
  exact (histories_well_formed scenario "1001" a Hw Ha).
Defined.

Lemma account_count_witness :
  reachable scenario /\
  Z.of_nat (size (accounts (data scenario))) = next_acc (data scenario) - 1001.
Proof.
  assert (reachable scenario) as Hw by apply reachable_exec.
  split; [exact Hw|]. exact (account_count scenario Hw).
Defined.

Lemma file_follows_data_witness :
  reachable before_transfer /\
  succeeded (call (Deposit "1001" (Some 25%float) "t6") before_transfer).1 = true /\
  file (after (Deposit "1001" (Some 25%float) "t6") before_transfer)
    = Some (data (after (Deposit "1001" (Some 25%float) "t6") before_transfer)).
Proof.
  assert (reachable before_transfer) as Hw by apply reachable_exec.
  split; [exact Hw|]. split; [vm_compute; reflexivity|].
  apply (file_follows_data (Deposit "1001" (Some 25%float) "t6") before_transfer Hw).
  vm_compute; reflexivity.
Defined.

Lemma other_accounts_only_credited_witness :
  Forall (by_account "1001")
    [Transfer "1001" "1002" (Some 200%float) "t4" "t5"; Withdraw "1001" (Some 50%float) "t6"] /\
  exists a a', accounts (data before_transfer) !! "1002" = Some a /\
    accounts (data (exec [Transfer "1001" "1002" (Some 200%float) "t4" "t5";
                          Withdraw "1001" (Some 50%float) "t6"] before_transfer))
      !! "1002" = Some a' /\
    credited "1001" a a'.
Proof.
  assert (Forall (by_account "1001")
            [Transfer "1001" "1002" (Some 200%float) "t4" "t5";
             Withdraw "1001" (Some 50%float) "t6"]) as Hall
    by (repeat constructor).
  assert (exists a, accounts (data before_transfer) !! "1002" = Some a) as (a & Ha)
    by (eexists; vm_compute; reflexivity).
  split; [exact Hall|].
  destruct (other_accounts_only_credited "1001" _ "1002" before_transfer a Hall
              ltac:(discriminate) Ha) as (a' & Ha' & Hcr).
  exists a, a'. auto.
Defined.

Lemma create_account_io_refines_witness :
  stdin sample_opening = "Asha" :: ["12a4"; "1234"; "1235"; "4321"; "4321"; "3"] /\
  (length ["12a4"; "1234"; "1235"; "4321"; "4321"; "3"] < 10)%nat /\
  match create_account_io sample_clock 10 sample_opening with
  | Finished _ c' =>
      exists m,
        create_account "Asha" ["12a4"; "1234"; "1235"; "4321"; "4321"; "3"]
          (sample_clock (clock sample_opening)) (world_of sample_opening)
          = (Return m, world_of c') /\
        last (stdout c') = Some (Printed m) /\
        (length (stdin c') < length (stdin sample_opening))%nat
  | Crashed e c' =>
      create_account "Asha" ["12a4"; "1234"; "1235"; "4321"; "4321"; "3"]
        (sample_clock (clock sample_opening)) (world_of sample_opening)
        = (Raise e, world_of c') /\
      e = EOFError /\ world_of c' = world_of sample_opening /\
      (length (stdin c') <= length (stdin sample_opening))%nat
  | OutOfFuel => False
  end.
Proof.
  split; [reflexivity|]. split; [cbn; lia|].
  destruct (create_account_io_refines sample_clock 10 sample_opening) as [_ Hcall].
  apply (Hcall "Asha" ["12a4"; "1234"; "1235"; "4321"; "4321"; "3"]);
    [reflexivity|cbn; lia].
Defined.

Lemma account_menu_safe_witness :
  is_Some (accounts (data (world_of sample_menu)) !! "1001") /\
  (length (stdin sample_menu) < 20)%nat /\
  match account_menu sample_float sample_clock 20 "1001" sample_menu with
  | Finished _ c' =>
      (exists ops, Forall (by_account "1001") ops /\
                   world_of c' = exec ops (world_of sample_menu)) /\
      last (stdout c') = Some LoggingOut
  | Crashed e c' =>
      e = EOFError /\
      exists ops, Forall (by_account "1001") ops /\
                  world_of c' = exec ops (world_of sample_menu)
  | OutOfFuel => False
  end.
Proof.
  assert (is_Some (accounts (data (world_of sample_menu)) !! "1001")) as Ha
    by (eexists; vm_compute; reflexivity).
  split; [exact Ha|]. split; [cbn; lia|].
  apply (account_menu_safe sample_float sample_clock 20 "1001" sample_menu Ha).
  cbn; lia.
Defined.

Lemma main_safe_witness :
  reachable scenario /\
  (length ["2"; "1001"; "1234"; "3"; "200"; "4"; "1002"; "200"; "6"; "3"] < 100)%nat /\
  match main sample_float sample_clock 100
          (start (file scenario)
             ["2"; "1001"; "1234"; "3"; "200"; "4"; "1002"; "200"; "6"; "3"]) with
  | Finished _ c' =>
      (exists ops, world_of c' = exec ops scenario) /\
      reachable (world_of c') /\
      last (stdout c') = Some Goodbye
  | Crashed e c' =>
      e = EOFError /\
      (exists ops, world_of c' = exec ops scenario) /\
      reachable (world_of c')
  | OutOfFuel => False
  end.
Proof.
  assert (reachable scenario) as Hw by apply reachable_exec.
  split; [exact Hw|]. split; [cbn; lia|].
  apply (main_safe sample_float sample_clock scenario
           ["2"; "1001"; "1234"; "3"; "200"; "4"; "1002"; "200"; "6"; "3"] 100 Hw).
  cbn; lia.
Defined.

Lemma transfers_paired_witness :
  reachable scenario /\
  sent_to "1002" (history_of scenario "1001")
    = received_from "1001" (history_of scenario "1002").
Proof.
  assert (reachable scenario) as Hw by apply reachable_exec.
  split; [exact Hw|]. exact (transfers_paired scenario "1001" "1002" Hw).
Defined.

Lemma sessions_keep_order_witness :
  solvent dimes /\ solvent (exec [five_cents] dimes).
Proof.
  assert (solvent dimes) as Hs by (apply reachable_solvent, reachable_exec).
  split; [exact Hs|]. now apply (sessions_keep_order [five_cents] dimes).
Defined.
